(** * pub-manifest: the publication-manifest builder of [src/common/js/pub.js]

    A shallow embedding of [create_manifest] and of the helpers it closes
    over ([is_relative], [image_type], [uniq]), together with the fragment
    of the JavaScript and DOM semantics the function relies on.

    Conventions of the model.
    - A JavaScript string is a [string]: a sequence of 8-bit characters.
      [toUpperCase] and [toLowerCase] change the ASCII letters only, as
      the JavaScript functions do on a string of ASCII characters; a
      statement that reads the branch of the status switch off the status
      takes the status to be ASCII.
    - [null] and [undefined] results of DOM reads are [None].
    - A JavaScript object whose property order matters (it decides the
      serialized text) is an ordered list of properties.
    - A thrown [TypeError] is the [Throw] result; its message, which the
      engine chooses, is not modelled. *)

From Stdlib Require Import Bool Arith Lia List Ascii String ZArith.
Import ListNotations.

Local Open Scope list_scope.
Local Open Scope string_scope.

Set Implicit Arguments.
Local Set Warnings "-register-all".

(** ** Strings *)

Module JsString.

(** [String.prototype.startsWith], position 0. *)
Definition startsWith (s search : string) : bool := String.prefix search s.

(** [String.prototype.endsWith]: the code units of [search] are those of
    [s] from index [length s - length search]. *)
Definition endsWith (s search : string) : bool :=
  if (String.length search <=? String.length s)%nat
  then String.eqb
         (substring (String.length s - String.length search)
                    (String.length search) s)
         search
  else false.

(** [s[0] === c]; [s[0]] is [undefined] on the empty string. *)
Definition first_is (s : string) (c : ascii) : bool :=
  match s with
  | EmptyString => false
  | String c0 _ => Ascii.eqb c0 c
  end.

Definition is_lower (c : ascii) : bool :=
  ((97 <=? nat_of_ascii c) && (nat_of_ascii c <=? 122))%nat.

Definition is_upper (c : ascii) : bool :=
  ((65 <=? nat_of_ascii c) && (nat_of_ascii c <=? 90))%nat.

Definition upper_char (c : ascii) : ascii :=
  if is_lower c then ascii_of_nat (nat_of_ascii c - 32) else c.

Definition lower_char (c : ascii) : ascii :=
  if is_upper c then ascii_of_nat (nat_of_ascii c + 32) else c.

Fixpoint map_chars (f : ascii -> ascii) (s : string) : string :=
  match s with
  | EmptyString => EmptyString
  | String c r => String (f c) (map_chars f r)
  end.

Definition toUpperCase : string -> string := map_chars upper_char.
Definition toLowerCase : string -> string := map_chars lower_char.

(** Truthiness of a value that is a string or [null]: [null] and the
    empty string are falsy. *)
Definition truthy (v : option string) : bool :=
  match v with
  | None => false
  | Some s => negb (String.eqb s "")
  end.

(** ASCII whitespace, the separators of a class list. *)
Definition is_space (c : ascii) : bool :=
  match nat_of_ascii c with
  | 9 | 10 | 12 | 13 | 32 => true
  | _ => false
  end.

(** The tokens of a whitespace-separated list; [cur] is the token being
    read. *)
Fixpoint tokens_from (cur : string) (s : string) : list string :=
  match s with
  | EmptyString => if String.eqb cur "" then [] else [cur]
  | String c r =>
      if is_space c
      then (if String.eqb cur "" then tokens_from "" r
            else cur :: tokens_from "" r)
      else tokens_from (cur ++ String c "") r
  end.

Definition tokens (s : string) : list string := tokens_from "" s.

End JsString.

Import JsString.

(** ** The document tree *)

Module Dom.

Definition attribute_list := list (string * string).

(** An element as the queries see it: its tag name and its attributes,
    both in the lower case the HTML parser gives them. *)
Record element := mkElement {
  tagName : string;
  attributes : attribute_list
}.

Inductive node :=
| Element (e : element) (childNodes : list node)
| Text (data : string).

(** [element.getAttribute(name)]: [null] when there is none. *)
Fixpoint lookup_attribute (name : string) (l : attribute_list) : option string :=
  match l with
  | [] => None
  | (k, v) :: r => if String.eqb k name then Some v else lookup_attribute name r
  end.

Definition getAttribute (e : element) (name : string) : option string :=
  lookup_attribute name (attributes e).

(** [element.setAttribute(name, value)]: the value is replaced where the
    attribute exists and appended otherwise. *)
Fixpoint store_attribute (name value : string) (l : attribute_list) : attribute_list :=
  match l with
  | [] => [(name, value)]
  | (k, v) :: r =>
      if String.eqb k name then (k, value) :: r
      else (k, v) :: store_attribute name value r
  end.

Definition setAttribute (name value : string) (e : element) : element :=
  mkElement (tagName e) (store_attribute name value (attributes e)).

(** The elements below (and including) a node, in document order. *)
Fixpoint elements (n : node) : list element :=
  match n with
  | Text _ => []
  | Element e kids => e :: flat_map elements kids
  end.

(** The selectors the builder uses. *)
Inductive selector :=
| ByTag (tag : string)                 (* "object", "img", "a", "script" *)
| ByTagId (tag : string) (id : string)  (* "nav#toc" *)
| ByTagClass (tag : string) (cls : string). (* "a.u-url", "span.orcid" *)

Definition has_class (cls : string) (e : element) : bool :=
  match getAttribute e "class" with
  | None => false
  | Some v => existsb (String.eqb cls) (tokens v)
  end.

Definition matches (sel : selector) (e : element) : bool :=
  match sel with
  | ByTag tag => String.eqb (tagName e) tag
  | ByTagId tag id =>
      String.eqb (tagName e) tag &&
      match getAttribute e "id" with
      | Some v => String.eqb v id
      | None => false
      end
  | ByTagClass tag cls => String.eqb (tagName e) tag && has_class cls e
  end.

Definition querySelectorAll (sel : selector) (root : node) : list element :=
  filter (matches sel) (elements root).

Definition querySelector (sel : selector) (root : node) : option element :=
  hd_error (querySelectorAll sel root).

(** The list with its first member that [f] rewrites replaced by the
    rewritten one; [None] when [f] rewrites no member. *)
Section FirstOf.
Variable A : Type.
Variable f : A -> option A.

Fixpoint update_first_of (l : list A) : option (list A) :=
  match l with
  | [] => None
  | k :: r =>
      match f k with
      | Some k' => Some (k' :: r)
      | None => option_map (cons k) (update_first_of r)
      end
  end.
End FirstOf.

(** Mutation of the first element, in document order, that [p] accepts:
    [f] rewrites the element and its children.  [None] when no element
    matches. *)
Fixpoint update_first (p : element -> bool)
         (f : element -> list node -> node) (n : node) : option node :=
  match n with
  | Text _ => None
  | Element e kids =>
      if p e then Some (f e kids)
      else option_map (Element e) (update_first_of (update_first p f) kids)
  end.

(** [parent.appendChild(child)]. *)
Definition appendChild (child : node) (e : element) (kids : list node) : node :=
  Element e (kids ++ [child])%list.

(** An HTML document as the parser builds it: the root [html] element
    with the [head] as its first child, followed by the [body]. *)
Record html_document := mkDocument {
  html_attributes : attribute_list;
  head_attributes : attribute_list;
  head_childNodes : list node;
  after_head : list node
}.

Definition documentElement (d : html_document) : node :=
  Element (mkElement "html" (html_attributes d))
    (Element (mkElement "head" (head_attributes d)) (head_childNodes d)
     :: after_head d).

End Dom.

Import Dom.

(** ** JavaScript values and JSON text *)

Module Js.

(** The values the builder stores in the manifest. *)
Inductive value :=
| VUndefined
| VNull
| VString (s : string)
| VArray (items : list value)
| VObject (properties : list (string * value)).

(** An object: its properties in insertion order. *)
Definition object := list (string * value).

Section Properties.
Variable V : Type.

(** [obj[key] = v]: an existing property keeps its place, a new one
    goes last. *)
Fixpoint set_property (key : string) (v : V) (o : list (string * V))
  : list (string * V) :=
  match o with
  | [] => [(key, v)]
  | (k, x) :: r =>
      if String.eqb k key then (k, v) :: r
      else (k, x) :: set_property key v r
  end.

(** [obj[key]]; [None] is [undefined]. *)
Fixpoint get_property (key : string) (o : list (string * V)) : option V :=
  match o with
  | [] => None
  | (k, x) :: r => if String.eqb k key then Some x else get_property key r
  end.
End Properties.

(** A string that may be [undefined] (an absent property of the
    configuration) or [null] (an absent attribute). *)
Definition or_undefined (s : option string) : value :=
  match s with Some x => VString x | None => VUndefined end.

Definition or_null (s : option string) : value :=
  match s with Some x => VString x | None => VNull end.

Inductive error := TypeError.

Inductive result (A : Type) :=
| Ok (a : A)
| Throw (e : error).

Arguments Ok {A} a.
Arguments Throw {A} e.

(** [Array.prototype.indexOf] with strict equality: the first index of
    [key], or -1. *)
Section IndexOf.
Variable K : Type.
Variable eqb : K -> K -> bool.

Fixpoint indexOf_from (i : Z) (l : list K) (key : K) : Z :=
  match l with
  | [] => (-1)%Z
  | x :: r => if eqb x key then i else indexOf_from (i + 1)%Z r key
  end.

Definition indexOf (l : list K) (key : K) : Z := indexOf_from 0%Z l key.
End IndexOf.

End Js.

Import Js.

Module Json.

Definition hex_digit (n : nat) : ascii :=
  if (n <? 10)%nat then ascii_of_nat (48 + n) else ascii_of_nat (87 + n).

(** The escape of one character inside a JSON string. *)
Definition escape_char (c : ascii) : string :=
  let n := nat_of_ascii c in
  match n with
  | 8 => "\b"
  | 9 => "\t"
  | 10 => "\n"
  | 12 => "\f"
  | 13 => "\r"
  | 34 => String "\" (String c "")
  | 92 => "\\"
  | _ =>
      if (n <? 32)%nat
      then "\u00" ++ String (hex_digit (n / 16)) (String (hex_digit (n mod 16)) "")
      else String c ""
  end.

Fixpoint escape (s : string) : string :=
  match s with
  | EmptyString => ""
  | String c r => escape_char c ++ escape r
  end.

Definition dquote : ascii := ascii_of_nat 34.

Definition quote (s : string) : string :=
  String dquote (escape s ++ String dquote "").

Definition newline : string := String (ascii_of_nat 10) "".

(** The gap of [JSON.stringify(v, null, 4)]. *)
Definition gap : string := "    ".

Fixpoint join (sep : string) (l : list string) : string :=
  match l with
  | [] => ""
  | [x] => x
  | x :: r => x ++ sep ++ join sep r
  end.

Definition wrap (opening closing stepback indent : string)
           (partial : list string) : string :=
  match partial with
  | [] => opening ++ closing
  | _ =>
      opening ++ newline ++ indent
      ++ join ("," ++ newline ++ indent) partial
      ++ newline ++ stepback ++ closing
  end.

(** The serialization of a property value at the indentation [stepback];
    [None] is the [undefined] result that makes the caller drop the
    property (or write [null] in an array). *)
Fixpoint serialize (stepback : string) (v : value) : option string :=
  let indent := stepback ++ gap in
  match v with
  | VUndefined => None
  | VNull => Some "null"
  | VString s => Some (quote s)
  | VArray items =>
      Some (wrap "[" "]" stepback indent
              (map (fun x => match serialize indent x with
                             | Some t => t
                             | None => "null"
                             end) items))
  | VObject props =>
      Some (wrap "{" "}" stepback indent
              ((fix members (l : list (string * value)) : list string :=
                  match l with
                  | [] => []
                  | (k, x) :: r =>
                      match serialize indent x with
                      | Some t => (quote k ++ ": " ++ t) :: members r
                      | None => members r
                      end
                  end) props))
  end.

(** [JSON.stringify(v, null, 4)] of an object or array. *)
Definition stringify (v : value) : string :=
  match serialize "" v with
  | Some t => t
  | None => ""
  end.

End Json.

(** ** The builder *)

Module Pub.

(** *** Configuration *)

Record Person := mkPerson {
  person_name : string;
  person_url : option string;
  person_company : option string;
  person_companyURL : option string
}.

Record Config := mkConfig {
  shortName : string;
  specStatus : string;
  editors : option (list Person);
  authors : option (list Person);
  creators : option (list Person)
}.

(** [config[key]] for the keys of [person_keys_mapping]. *)
Definition config_get (config : Config) (key : string) : option (list Person) :=
  if String.eqb key "editors" then editors config
  else if String.eqb key "authors" then authors config
  else if String.eqb key "creators" then creators config
  else None.

(** *** Manifest *)

(** A LinkedResource object: every property value is a string. *)
Definition LinkedResource := list (string * string).

(** [entry.url] *)
Definition entry_url (entry : LinkedResource) : option string :=
  get_property "url" entry.

Definition encodingFormat_of (entry : LinkedResource) : option string :=
  get_property "encodingFormat" entry.

Definition description_of (entry : LinkedResource) : option string :=
  get_property "description" entry.

Definition rel_of (entry : LinkedResource) : option string :=
  get_property "rel" entry.

(** The local [manifest].  The fields are listed in the order in which
    the source creates the properties; the optional ones are [None]
    until they are assigned. *)
Record Manifest := mkManifest {
  m_context : list string;
  m_type : string;
  m_accessMode : list string;
  m_accessModeSufficient : list string;
  m_resources : list LinkedResource;
  m_links : list LinkedResource;
  m_id : string;
  m_url : option string;             (* [None] is null *)
  m_datePublished : option string;   (* [None] is null *)
  m_editor : option (list value);
  m_author : option (list value);
  m_creator : option (list value);
  m_encodingFormat : option string
}.

Definition with_resources (r : list LinkedResource) (m : Manifest) : Manifest :=
  mkManifest (m_context m) (m_type m) (m_accessMode m) (m_accessModeSufficient m)
             r (m_links m) (m_id m) (m_url m) (m_datePublished m)
             (m_editor m) (m_author m) (m_creator m) (m_encodingFormat m).

Definition with_encodingFormat (t : string) (m : Manifest) : Manifest :=
  mkManifest (m_context m) (m_type m) (m_accessMode m) (m_accessModeSufficient m)
             (m_resources m) (m_links m) (m_id m) (m_url m) (m_datePublished m)
             (m_editor m) (m_author m) (m_creator m) (Some t).

(** [manifest[key] = people] for the values of [person_keys_mapping]. *)
Definition with_people (key : string) (people : list value) (m : Manifest) : Manifest :=
  mkManifest (m_context m) (m_type m) (m_accessMode m) (m_accessModeSufficient m)
             (m_resources m) (m_links m) (m_id m) (m_url m) (m_datePublished m)
             (if String.eqb key "editor" then Some people else m_editor m)
             (if String.eqb key "author" then Some people else m_author m)
             (if String.eqb key "creator" then Some people else m_creator m)
             (m_encodingFormat m).

(** [manifest.resources.push(entry)] *)
Definition push (entry : LinkedResource) (m : Manifest) : Manifest :=
  with_resources (m_resources m ++ [entry])%list m.

Definition resource_value (entry : LinkedResource) : value :=
  VObject (map (fun kv => (fst kv, VString (snd kv))) entry).

Definition optional_property (key : string) (v : option value) : object :=
  match v with
  | Some x => [(key, x)]
  | None => []
  end.

(** The manifest as the object [JSON.stringify] walks: the properties in
    the order of their creation. *)
Definition manifest_value (m : Manifest) : value :=
  VObject
    ([ ("@context", VArray (map VString (m_context m)));
       ("type", VString (m_type m));
       ("accessMode", VArray (map VString (m_accessMode m)));
       ("accessModeSufficient", VArray (map VString (m_accessModeSufficient m)));
       ("resources", VArray (map resource_value (m_resources m)));
       ("links", VArray (map resource_value (m_links m)));
       ("id", VString (m_id m));
       ("url", or_null (m_url m));
       ("datePublished", or_null (m_datePublished m)) ]
     ++ optional_property "editor" (option_map VArray (m_editor m))
     ++ optional_property "author" (option_map VArray (m_author m))
     ++ optional_property "creator" (option_map VArray (m_creator m))
     ++ optional_property "encodingFormat" (option_map VString (m_encodingFormat m)))%list.

(** *** The helpers closed over by [create_manifest] *)

Definition FULL_BOUNDARY : bool := false.

Definition is_relative (url : string) : bool :=
  if first_is url "#"
     || startsWith url "http://"
     || startsWith url "https://"
     || startsWith url "mailto:"
  then false else true.

(** [null] is [None]. *)
Definition image_type (img : string) : option string :=
  if endsWith img ".gif" then Some "image/gif"
  else if endsWith img ".png" then Some "image/png"
  else if endsWith img ".bmp" then Some "image/bmp"
  else if endsWith img ".jpg" || endsWith img ".jpeg" then Some "image/jpeg"
  else if endsWith img ".svg" then Some "image/svg+xml"
  else if endsWith img ".pdf" then Some "application/pdf"
  else None.

(** Strict equality of two [entry.url] values: strings or [undefined]. *)
Definition key_eqb (a b : option string) : bool :=
  match a, b with
  | Some x, Some y => String.eqb x y
  | None, None => true
  | _, _ => false
  end.

(** The filter of [uniq], with the [buffer] of the keys seen so far. *)
Fixpoint uniq_filter (buffer : list (option string)) (arr : list LinkedResource)
  : list LinkedResource :=
  match arr with
  | [] => []
  | entry :: rest =>
      let key := entry_url entry in
      if negb (Z.eqb (indexOf key_eqb buffer key) (-1))
      then uniq_filter buffer rest
      else entry :: uniq_filter (buffer ++ [key])%list rest
  end.

Definition uniq (arr : list LinkedResource) : list LinkedResource :=
  uniq_filter [] arr.

Definition person_keys_mapping : list (string * string) :=
  [ ("editors", "editor"); ("authors", "author"); ("creators", "creator") ].

Definition MANIFEST_ID : string := "pub_manifest".

(** *** The run *)

(** What the function reads from its environment: the global
    [document] and the global variable [retval], which the person
    callback assigns without declaring it. *)
Record world := mkWorld {
  document : node;
  global_retval : option value
}.

(** The state the callbacks work on.  [is_relative_calls] is a ghost
    field: the arguments [is_relative] has been applied to, in order. *)
Record state := mkState {
  manifest : Manifest;
  retval : option value;
  is_relative_calls : list string
}.

Definition on_manifest (f : Manifest -> Manifest) (s : state) : state :=
  mkState (f (manifest s)) (retval s) (is_relative_calls s).

Definition call_is_relative (url : string) (s : state) : bool * state :=
  (is_relative url,
   mkState (manifest s) (retval s) (is_relative_calls s ++ [url])%list).

(** The static content, lines 71 to 106. *)
Definition static_resources : list LinkedResource :=
  [ [ ("type", "LinkedResource");
      ("url", "https://www.w3.org/StyleSheets/TR/2016/logos/W3C");
      ("encodingFormat", "image/svg+xml");
      ("description", "W3C Logo") ];
    [ ("type", "LinkedResource");
      ("url", "https://www.w3.org/StyleSheets/TR/2016/base.css");
      ("rel", "stylesheet");
      ("encodingFormat", "text/css");
      ("description", "Generic CSS file for W3C TR documents") ] ].

Definition static_links : list LinkedResource :=
  [ [ ("type", "LinkedResource");
      ("url", "https://www.w3.org/Consortium/Legal/privacy-statement-20140324");
      ("encodingFormat", "text/html");
      ("rel", "privacy-policy") ];
    [ ("type", "LinkedResource");
      ("url", "https://www.w3.org/Consortium/Legal/2015/copyright-software-and-document");
      ("encodingFormat", "text/html");
      ("rel", "license describedby") ];
    [ ("type", "LinkedResource");
      ("url", "http://www.w3.org/Consortium/Legal/ipr-notice#Copyright");
      ("encodingFormat", "text/html");
      ("rel", "copyright") ] ].

(** The manifest after lines 71 to 118. *)
Definition initial_manifest (config : Config) (url datePublished : option string)
  : Manifest :=
  mkManifest
    ["https://schema.org"; "https://www.w3.org/ns/pub-context"]
    "TechArticle"
    ["textual"; "diagramOnVisual"]
    ["textual"]
    static_resources
    static_links
    ("https://www.w3.org/TR/" ++ shortName config ++ "/")
    url
    datePublished
    None None None None.

(** **** Persons, lines 121 to 137 *)

(** The callback of [config[key].map].  The object is built in the
    global [retval]; [retval.affiliation.url] is set through the
    reference stored in [retval.affiliation], so the object returned has
    the affiliation with its url. *)
Definition person_callback (person : Person) (s : state) : value * state :=
  let obj : object := [ ("type", VString "Person") ] in
  let obj := set_property "name" (VString (person_name person)) obj in
  let obj :=
    match person_url person with
    | Some u => set_property "id" (VString u) obj
    | None => obj
    end in
  let affiliation : object :=
    [ ("type", VString "Organization");
      ("name", or_undefined (person_company person)) ] in
  let affiliation :=
    match person_companyURL person with
    | Some u => set_property "url" (VString u) affiliation
    | None => affiliation
    end in
  let obj := set_property "affiliation" (VObject affiliation) obj in
  (VObject obj, mkState (manifest s) (Some (VObject obj)) (is_relative_calls s)).

(** [Array.prototype.map] with a callback that works on the state. *)
Fixpoint array_map (A B : Type) (f : A -> state -> B * state)
         (l : list A) (s : state) : list B * state :=
  match l with
  | [] => ([], s)
  | x :: r =>
      let (y, s1) := f x s in
      let (ys, s2) := array_map f r s1 in
      (y :: ys, s2)
  end.

(** The callback of [Object.keys(person_keys_mapping).forEach]. *)
Definition person_key_callback (config : Config) (s : state)
           (entry : string * string) : state :=
  let (key, target) := entry in
  match config_get config key with
  | Some people =>
      let (objs, s1) := array_map person_callback people s in
      on_manifest (with_people target objs) s1
  | None => s
  end.

Definition add_persons (config : Config) (s : state) : state :=
  fold_left (person_key_callback config) person_keys_mapping s.

(** **** Style, logo and watermark, lines 140 to 209 *)

Record status_files := mkStatusFiles {
  styleFile : option string;   (* [None] is undefined *)
  logoFile : option string;
  logoFormat : string;
  watermark : option string
}.

(** The [switch] on [config.specStatus.toUpperCase()]. *)
Definition status_switch (config : Config) : status_files :=
  let styleFile := "W3C-" in
  let logoFormat := "image/svg+xml" in
  let status := toUpperCase (specStatus config) in
  if String.eqb status "CG-DRAFT" || String.eqb status "CG-FINAL"
     || String.eqb status "BG-DRAFT" || String.eqb status "BG-FINAL"
  then
    let styleFile := toLowerCase (specStatus config) in
    mkStatusFiles (Some styleFile) (Some ("back-" ++ styleFile ++ ".png"))
                  "image/png" None
  else if String.eqb status "FPWD" || String.eqb status "LC"
          || String.eqb status "WD-NOTE" || String.eqb status "LC-NOTE"
  then mkStatusFiles (Some (styleFile ++ "WD")) (Some "WD") logoFormat None
  else if String.eqb status "WG-NOTE" || String.eqb status "FPWD-NOTE"
  then mkStatusFiles (Some (styleFile ++ "WG-NOTE")) (Some "WG-Note") logoFormat None
  else if String.eqb status "UNOFFICIAL"
  then mkStatusFiles (Some (styleFile ++ "UD")) (Some "UD.png") "image/png"
                     (Some "UD-watermark.png")
  else if String.eqb status "FINDING" || String.eqb status "FINDING-DRAFT"
          || String.eqb status "BASE"
  then mkStatusFiles None None logoFormat None
  else mkStatusFiles (Some (styleFile ++ toUpperCase (specStatus config)))
                     (Some (toUpperCase (specStatus config))) logoFormat None.

Definition style_resource (styleFile : string) : LinkedResource :=
  [ ("type", "LinkedResource");
    ("url", "https://www.w3.org/StyleSheets/TR/2016/" ++ styleFile);
    ("rel", "stylesheet");
    ("encodingFormat", "text/css");
    ("description", "CSS file depending on the status of the document") ].

Definition logo_resource (logoFile logoFormat : string) : LinkedResource :=
  [ ("type", "LinkedResource");
    ("url", "https://www.w3.org/StyleSheets/TR/2016/logos/" ++ logoFile);
    ("encodingFormat", logoFormat);
    ("description", "Sidebar logo reflecting the status of the document") ].

Definition watermark_resource (watermark : string) : LinkedResource :=
  [ ("type", "LinkedResource");
    ("url", "https://www.w3.org/StyleSheets/TR/2016/logos/" ++ watermark);
    ("encodingFormat", "image/png");
    ("description", "Background watermark reflecting the status of the document") ].

Definition push_if (A : Type) (v : option A) (entry : A -> LinkedResource)
           (m : Manifest) : Manifest :=
  match v with
  | Some x => push (entry x) m
  | None => m
  end.

(** The status dispatch: the switch and the three conditional pushes. *)
Definition add_status_resources (config : Config) (m : Manifest) : Manifest :=
  let files := status_switch config in
  let m := push_if (styleFile files) style_resource m in
  let m := push_if (logoFile files) (fun f => logo_resource f (logoFormat files)) m in
  push_if (watermark files) watermark_resource m.

(** **** The ORCID logo, lines 212 to 219 *)

Definition orcid_resource : LinkedResource :=
  [ ("type", "LinkedResource");
    ("url", "images/orcid.gif");
    ("encodingFormat", "image/gif");
    ("description", "ORCID logo") ].

Definition add_orcid (doc : node) (m : Manifest) : Manifest :=
  match querySelector (ByTagClass "span" "orcid") doc with
  | Some _ => push orcid_resource m
  | None => m
  end.

(** **** The scan of the document, lines 229 to 302 *)

(** [a || b] on values that are strings or null. *)
Definition js_or (a b : option string) : option string :=
  if truthy a then a else b.

(** [if( v ) { retval[key] = v }] *)
Definition set_if_truthy (key : string) (v : option string)
           (obj : LinkedResource) : LinkedResource :=
  match v with
  | Some x => if truthy v then set_property key x obj else obj
  | None => obj
  end.

(** The condition [href && is_relative(href)]: [&&] evaluates
    [is_relative(href)] only when [href] is truthy.  The result is the
    reference when the condition holds. *)
Definition relative_reference (href : option string) (s : state)
  : option string * state :=
  match href with
  | None => (None, s)
  | Some h =>
      if truthy href
      then let (r, s1) := call_is_relative h s in
           (if r then Some h else None, s1)
      else (None, s)
  end.

Definition object_callback (s : state) (element : element) : state :=
  let href := getAttribute element "data" in
  match relative_reference href s with
  | (Some h, s1) =>
      let obj : LinkedResource := [ ("type", "LinkedResource"); ("url", h) ] in
      let type := js_or (getAttribute element "type") (image_type h) in
      let obj := set_if_truthy "encodingFormat" type obj in
      on_manifest (push obj) s1
  | (None, s1) => s1
  end.

Definition img_callback (s : state) (element : element) : state :=
  let href := getAttribute element "src" in
  match relative_reference href s with
  | (Some h, s1) =>
      let obj : LinkedResource := [ ("type", "LinkedResource"); ("url", h) ] in
      let type := image_type h in
      let obj := set_if_truthy "encodingFormat" type obj in
      let alt := getAttribute element "alt" in
      let obj := set_if_truthy "description" alt obj in
      on_manifest (push obj) s1
  | (None, s1) => s1
  end.

Definition a_callback (s : state) (element : element) : state :=
  let href := getAttribute element "href" in
  match relative_reference href s with
  | (Some h, s1) =>
      let obj : LinkedResource := [ ("type", "LinkedResource"); ("url", h) ] in
      let type := js_or (getAttribute element "type") (image_type h) in
      let obj := set_if_truthy "encodingFormat" type obj in
      let rel := getAttribute element "rel" in
      let obj := set_if_truthy "rel" rel obj in
      let descr := getAttribute element "title" in
      let obj := set_if_truthy "description" descr obj in
      on_manifest (push obj) s1
  | (None, s1) => s1
  end.

(** [element.getAttribute(name) !== v] *)
Definition differs (a : option string) (v : string) : bool :=
  match a with
  | Some x => negb (String.eqb x v)
  | None => true
  end.

Definition script_callback (s : state) (element : element) : state :=
  if differs (getAttribute element "class") "remove"
  then
    let href := getAttribute element "src" in
    match relative_reference href s with
    | (Some h, s1) =>
        let obj : LinkedResource := [ ("type", "LinkedResource"); ("url", h) ] in
        if endsWith h ".js"
        then
          let obj := set_property "encodingFormat" "application/Javascript" obj in
          on_manifest (push obj) s1
        else
          let type := getAttribute element "type" in
          let s2 :=
            match type with
            | Some t =>
                if truthy type
                then on_manifest (with_encodingFormat t) s1   (* line 296 *)
                else s1
            | None => s1
            end in
          on_manifest (push obj) s2
    | (None, s1) => s1
    end
  else s.

(** [document.querySelectorAll(tag).forEach(callback)] *)
Definition for_each (doc : node) (tag : string)
           (callback : state -> element -> state) (s : state) : state :=
  fold_left callback (querySelectorAll (ByTag tag) doc) s.

Definition scan (doc : node) (s : state) : state :=
  let s := for_each doc "object" object_callback s in
  let s := for_each doc "img" img_callback s in
  let s := for_each doc "a" a_callback s in
  for_each doc "script" script_callback s.

(** **** The whole function *)

(** Lines 112 to 302: the state before [uniq] is applied.  The reads of
    the two markers throw when the marker is not in the document. *)
Definition collect (config : Config) (doc : node) (g : option value)
  : result state :=
  match querySelector (ByTagClass "a" "u-url") doc with
  | None => Throw TypeError
  | Some u =>
      let url := getAttribute u "href" in
      match querySelector (ByTagClass "time" "dt-published") doc with
      | None => Throw TypeError
      | Some t =>
          let datePublished := getAttribute t "datetime" in
          let s := mkState (initial_manifest config url datePublished) g [] in
          let s := add_persons config s in
          let s := on_manifest (add_status_resources config) s in
          let s := on_manifest (add_orcid doc) s in
          Ok (scan doc s)
      end
  end.

(** Line 304. *)
Definition deduplicate (s : state) : state :=
  on_manifest (fun m => with_resources (uniq (m_resources m)) m) s.

(** Lines 71 to 304: the state when the manifest is serialized. *)
Definition build_manifest (config : Config) (doc : node) (g : option value)
  : result state :=
  match collect config doc g with
  | Ok s => Ok (deduplicate s)
  | Throw e => Throw e
  end.

(** Lines 63 to 66. *)
Definition is_toc : element -> bool := matches (ByTagId "nav" "toc").

Definition mark_toc (doc : node) : node :=
  match update_first is_toc
          (fun e kids => Element (setAttribute "role" "doc-toc" e) kids) doc with
  | Some doc1 => doc1
  | None => doc
  end.

(** Lines 309 to 322: the two elements appended to the head. *)
Definition link_element : node :=
  Element
    (setAttribute "href" ("#" ++ MANIFEST_ID)
       (setAttribute "rel" "publication" (mkElement "link" [])))
    [].

Definition manifest_element (m : Manifest) : node :=
  Element
    (setAttribute "id" MANIFEST_ID
       (setAttribute "type" "application/ld+json" (mkElement "script" [])))
    [Text (Json.stringify (manifest_value m))].

Definition append_to_head (m : Manifest) (doc : node) : result node :=
  match update_first (matches (ByTag "head"))
          (fun head kids =>
             Element head (kids ++ [link_element; manifest_element m])%list)
          doc with
  | Some doc1 => Ok doc1
  | None => Throw TypeError
  end.

(** The state at line 304 of the run started in [w]. *)
Definition final_state (config : Config) (w : world) : result state :=
  build_manifest config (mark_toc (document w)) (global_retval w).

Definition create_manifest (config : Config) (w : world) : result world :=
  match final_state config w with
  | Throw e => Throw e
  | Ok s =>
      match append_to_head (manifest s) (mark_toc (document w)) with
      | Throw e => Throw e
      | Ok doc1 => Ok (mkWorld doc1 (retval s))
      end
  end.

(** The text of the manifest a completed run has stored in the document. *)
Definition manifest_text (config : Config) (w : world) : result string :=
  match create_manifest config w, final_state config w with
  | Ok _, Ok s => Ok (Json.stringify (manifest_value (manifest s)))
  | Throw e, _ => Throw e
  | _, Throw e => Throw e
  end.

End Pub.

(** ** Vocabulary of the statements *)

Module Statement.

Import Pub.

(** [s] begins with [p]; [s] ends with [x]. *)
Definition starts_with (s p : string) : Prop := exists r, s = p ++ r.
Definition ends_with (s x : string) : Prop := exists p, s = p ++ x.

(** [l1] is [l2] with some entries left out, the others in their order. *)
Inductive subsequence (A : Type) : list A -> list A -> Prop :=
| subsequence_nil : subsequence [] []
| subsequence_keep x l1 l2 : subsequence l1 l2 -> subsequence (x :: l1) (x :: l2)
| subsequence_drop x l1 l2 : subsequence l1 l2 -> subsequence l1 (x :: l2).

(** The first entry of [l] whose url is [key]. *)
Definition first_with_url (key : option string) (l : list LinkedResource)
  : option LinkedResource :=
  find (fun entry => key_eqb (entry_url entry) key) l.

(** The four scans of lines 229 to 302. *)
Inductive scanned := ScanObject | ScanImg | ScanA | ScanScript.

Definition scanned_tag (k : scanned) : string :=
  match k with
  | ScanObject => "object"
  | ScanImg => "img"
  | ScanA => "a"
  | ScanScript => "script"
  end.

Definition reference_attribute (k : scanned) : string :=
  match k with
  | ScanObject => "data"
  | ScanImg => "src"
  | ScanA => "href"
  | ScanScript => "src"
  end.

Definition callback_of (k : scanned) : state -> element -> state :=
  match k with
  | ScanObject => object_callback
  | ScanImg => img_callback
  | ScanA => a_callback
  | ScanScript => script_callback
  end.

(** The callback adds [entry] to [manifest.resources]. *)
Definition produces (k : scanned) (s : state) (e : element)
           (entry : LinkedResource) : Prop :=
  m_resources (manifest (callback_of k s e))
  = (m_resources (manifest s) ++ [entry])%list.

(** The callback adds nothing to [manifest.resources]. *)
Definition produces_nothing (k : scanned) (s : state) (e : element) : Prop :=
  m_resources (manifest (callback_of k s e)) = m_resources (manifest s).

(** [s] is [word], a lower-case ASCII word, with each letter in either
    case. *)
Fixpoint any_case_of (word s : string) : bool :=
  match word, s with
  | EmptyString, EmptyString => true
  | String l word', String c s' =>
      (Ascii.eqb c l || Ascii.eqb c (ascii_of_nat (nat_of_ascii l - 32)))
      && any_case_of word' s'
  | _, _ => false
  end.

(** [word] consists of lower-case ASCII letters. *)
Fixpoint all_lower (word : string) : bool :=
  match word with
  | EmptyString => true
  | String l word' => is_lower l && all_lower word'
  end.

(** The Person entry the specification describes for a person record of
    the configuration. *)
Definition person_entry (person : Person) : value :=
  VObject
    ([ ("type", VString "Person");
       ("name", VString (person_name person)) ]
     ++ match person_url person with
        | Some u => [ ("id", VString u) ]
        | None => []
        end
     ++ [ ("affiliation",
           VObject
             ([ ("type", VString "Organization");
                ("name", or_undefined (person_company person)) ]
              ++ match person_companyURL person with
                 | Some u => [ ("url", VString u) ]
                 | None => []
                 end)%list) ])%list.

(** [manifest[key]] on the object that is serialized; [None] when the
    manifest has no such property. *)
Definition manifest_property (key : string) (m : Manifest) : option value :=
  match manifest_value m with
  | VObject props => get_property key props
  | _ => None
  end.

(** The extension table of the specification: [format] is what the
    table gives for [href], nothing when no extension of the table
    applies. *)
Definition sniffed (href : string) (format : option string) : Prop :=
  (ends_with href ".gif" -> format = Some "image/gif")
  /\ (ends_with href ".png" -> format = Some "image/png")
  /\ (ends_with href ".bmp" -> format = Some "image/bmp")
  /\ (ends_with href ".jpg" -> format = Some "image/jpeg")
  /\ (ends_with href ".jpeg" -> format = Some "image/jpeg")
  /\ (ends_with href ".svg" -> format = Some "image/svg+xml")
  /\ (ends_with href ".pdf" -> format = Some "application/pdf")
  /\ (~ ends_with href ".gif" -> ~ ends_with href ".png" ->
      ~ ends_with href ".bmp" -> ~ ends_with href ".jpg" ->
      ~ ends_with href ".jpeg" -> ~ ends_with href ".svg" ->
      ~ ends_with href ".pdf" -> format = None).

(** [s'] comes after [s] in a run: resources were only added, the person
    lists are the same, and [is_relative] was applied to non-empty strings
    only. *)
Definition advances (s s' : state) : Prop :=
  (exists added,
      m_resources (manifest s') = (m_resources (manifest s) ++ added)%list)
  /\ m_editor (manifest s') = m_editor (manifest s)
  /\ m_author (manifest s') = m_author (manifest s)
  /\ m_creator (manifest s') = m_creator (manifest s)
  /\ (exists calls,
         is_relative_calls s' = (is_relative_calls s ++ calls)%list
         /\ Forall (fun url => url <> "") calls).

(** The person lists a configuration asks for. *)
Definition people_of (people : option (list Person)) (before : option (list value))
  : option (list value) :=
  match people with
  | Some l => Some (map person_entry l)
  | None => before
  end.

(** Two states that differ at most in the global [retval]. *)
Definition alike (s1 s2 : state) : Prop :=
  manifest s1 = manifest s2 /\ is_relative_calls s1 = is_relative_calls s2.

(** [l'] is [l] with one element that [p] accepts rewritten by [g]. *)
Definition rewritten (p : element -> bool) (g : element -> element)
           (l l' : list element) : Prop :=
  exists l1 e l2,
    l = (l1 ++ e :: l2)%list /\ l' = (l1 ++ g e :: l2)%list /\ p e = true.

End Statement.

(** ** A sample input *)

Module Sample.

Import Pub.

Definition el (tag : string) (attrs : attribute_list) (kids : list node) : node :=
  Element (mkElement tag attrs) kids.

Definition page : html_document :=
  mkDocument
    [ ("lang", "en") ]
    []
    [ el "title" [] [ Text "Sample" ];
      el "script" [ ("src", "respec.js"); ("class", "remove") ] [];
      el "script" [ ("src", "js/app.mjs"); ("type", "module") ] [];
      el "script" [ ("src", "js/fix.js") ] [] ]
    [ el "body" []
        [ el "nav" [ ("id", "toc") ] [];
          el "a" [ ("class", "u-url"); ("href", "https://www.w3.org/TR/sample/") ] [];
          el "time" [ ("class", "dt-published"); ("datetime", "2019-01-01") ] [];
          el "img" [ ("src", "pic.png"); ("alt", "cap") ] [];
          el "a" [ ("href", "#frag") ] [];
          el "a" [ ("href", "https://example.com/x") ] [];
          el "a" [ ("href", "") ] [];
          el "a" [ ("href", "other.html"); ("title", "Other"); ("rel", "next") ] [];
          el "a" [ ("href", "pic.png") ] [];
          el "object" [ ("data", "fig.svg") ] [] ] ].

Definition config : Config :=
  mkConfig "sample" "unOfficial"
           (Some [ mkPerson "A" None (Some "C") None ])
           None
           None.

Definition start : world := mkWorld (documentElement page) None.

(** A tree with the two markers and no head element. *)
Definition headless : node :=
  el "body" []
     [ el "a" [ ("class", "u-url"); ("href", "https://www.w3.org/TR/sample/") ] [];
       el "time" [ ("class", "dt-published"); ("datetime", "2019-01-01") ] [] ].

(** A state as the scan finds it: the manifest of lines 71 to 118. *)
Definition fresh : state :=
  mkState (initial_manifest config (Some "https://www.w3.org/TR/sample/")
                            (Some "2019-01-01"))
          None [].

End Sample.

(** ** Vocabulary for the rest of the function *)

Module Layout.

Import Pub Statement.

(** The resources the status dispatch adds, in the order of the three
    tests of lines 183 to 209. *)
Definition status_resources (config : Config) : list LinkedResource :=
  let files := status_switch config in
  (match styleFile files with Some f => [style_resource f] | None => [] end
   ++ match logoFile files with
      | Some f => [logo_resource f (logoFormat files)]
      | None => []
      end
   ++ match watermark files with Some f => [watermark_resource f] | None => [] end)%list.

(** What line 212 adds. *)
Definition orcid_resources (doc : node) : list LinkedResource :=
  match querySelector (ByTagClass "span" "orcid") doc with
  | Some _ => [orcid_resource]
  | None => []
  end.

(** [entry] stands for a scanned element of [doc]: its url is the
    reference of the element, which is not empty and is relative. *)
Definition from_document (doc : node) (entry : LinkedResource) : Prop :=
  exists k e h,
    In e (querySelectorAll (ByTag (scanned_tag k)) doc)
    /\ getAttribute e (reference_attribute k) = Some h
    /\ h <> ""
    /\ is_relative h = true
    /\ (k = ScanScript -> getAttribute e "class" <> Some "remove")
    /\ entry_url entry = Some h.

(** The same, for one of the four scans. *)
Definition from_kind (doc : node) (k : scanned) (entry : LinkedResource) : Prop :=
  exists e h,
    In e (querySelectorAll (ByTag (scanned_tag k)) doc)
    /\ getAttribute e (reference_attribute k) = Some h
    /\ h <> ""
    /\ is_relative h = true
    /\ (k = ScanScript -> getAttribute e "class" <> Some "remove")
    /\ entry_url entry = Some h.

(** An element of the document is scanned and accepted with reference
    [h]. *)
Definition accepted (doc : node) (k : scanned) (e : element) (h : string) : Prop :=
  In e (querySelectorAll (ByTag (scanned_tag k)) doc)
  /\ getAttribute e (reference_attribute k) = Some h
  /\ h <> ""
  /\ is_relative h = true
  /\ (k = ScanScript -> getAttribute e "class" <> Some "remove").

(** A well-formed LinkedResource: the type tag and a url. *)
Definition well_formed (entry : LinkedResource) : Prop :=
  get_property "type" entry = Some "LinkedResource"
  /\ exists u, entry_url entry = Some u.

(** The two elements of lines 312 to 321, as the queries see them. *)
Definition link_tag : element :=
  mkElement "link" [ ("rel", "publication"); ("href", "#pub_manifest") ].

Definition manifest_tag : element :=
  mkElement "script" [ ("type", "application/ld+json"); ("id", "pub_manifest") ].

(** The person records of the configuration in the order in which the
    callback of line 124 sees them. *)
Definition all_people (config : Config) : list Person :=
  (match editors config with Some l => l | None => [] end
   ++ match authors config with Some l => l | None => [] end
   ++ match creators config with Some l => l | None => [] end)%list.

(** The value of a string attribute that is set and not empty. *)
Definition non_empty (v : option string) : option string :=
  match v with
  | Some x => if String.eqb x "" then None else Some x
  | None => None
  end.

(** The status codes of the [switch], lines 147 to 175. *)
Definition known_statuses : list string :=
  [ "CG-DRAFT"; "CG-FINAL"; "BG-DRAFT"; "BG-FINAL";
    "FPWD"; "LC"; "WD-NOTE"; "LC-NOTE";
    "WG-NOTE"; "FPWD-NOTE"; "UNOFFICIAL";
    "FINDING"; "FINDING-DRAFT"; "BASE" ].

Definition TR_2016 : string := "https://www.w3.org/StyleSheets/TR/2016/".

(** A string of ASCII characters: on these [toUpperCase] and
    [toLowerCase] are the JavaScript functions. *)
Fixpoint ascii_only (s : string) : bool :=
  match s with
  | EmptyString => true
  | String c r => (nat_of_ascii c <? 128)%nat && ascii_only r
  end.

(** The properties of the manifest that only lines 71 to 118 write. *)
Definition same_header (m m' : Manifest) : Prop :=
  m_context m' = m_context m
  /\ m_type m' = m_type m
  /\ m_accessMode m' = m_accessMode m
  /\ m_accessModeSufficient m' = m_accessModeSufficient m
  /\ m_links m' = m_links m
  /\ m_id m' = m_id m
  /\ m_url m' = m_url m
  /\ m_datePublished m' = m_datePublished m.


(** A script of the document whose type line 296 stores: it is accepted
    with a reference that does not end in [.js], and its type attribute
    [t] is not empty. *)
Definition typed_script (doc : node) (e : element) (h t : string) : Prop :=
  accepted doc ScanScript e h
  /\ endsWith h ".js" = false
  /\ getAttribute e "type" = Some t
  /\ t <> "".

End Layout.

Import Pub Statement.

(** ** Strings *)

Section StringFacts.

Lemma startsWith_spec (s p : string) :
  startsWith s p = true <-> starts_with s p.
Proof.
  unfold startsWith, starts_with.
  revert s; induction p as [|a p IH]; intros s; simpl.
  - destruct s; split; intros _; try reflexivity; eexists; reflexivity.
  - destruct s as [|b s]; simpl.
    + split; [discriminate | intros [r Hr]; discriminate].
    + destruct (ascii_dec a b) as [->|Hab].
      * rewrite IH. split; intros [r Hr]; exists r; congruence.
      * split; [discriminate | intros [r Hr]; congruence].
Qed.

Lemma substring_all (s : string) : substring 0 (String.length s) s = s.
Proof. induction s; simpl; congruence. Qed.

Lemma substring_skip (p x : string) :
  substring (String.length p) (String.length x) (p ++ x) = x.
Proof. induction p; simpl; auto using substring_all. Qed.

Lemma substring_split (s : string) (k : nat) :
  k <= String.length s ->
  substring 0 k s ++ substring k (String.length s - k) s = s.
Proof.
  revert k; induction s as [|c s IH]; intros [|k] Hk; simpl in *;
    try reflexivity; try lia.
  - now rewrite substring_all.
  - f_equal. apply IH. lia.
Qed.

Lemma length_append (a b : string) :
  String.length (a ++ b) = String.length a + String.length b.
Proof. induction a; simpl; auto. Qed.

Lemma endsWith_spec (s x : string) :
  endsWith s x = true <-> ends_with s x.
Proof.
  unfold endsWith, ends_with. split.
  - destruct (Nat.leb_spec (String.length x) (String.length s)) as [Hle|Hlt];
      [|discriminate].
    intros H. apply String.eqb_eq in H.
    exists (substring 0 (String.length s - String.length x) s).
    assert (E := @substring_split s (String.length s - String.length x)
                   ltac:(lia)).
    replace (String.length s - (String.length s - String.length x))
      with (String.length x) in E by lia.
    rewrite H in E. now symmetry.
  - intros [p ->]. rewrite length_append.
    destruct (Nat.leb_spec (String.length x) (String.length p + String.length x));
      [|lia].
    replace (String.length p + String.length x - String.length x)
      with (String.length p) by lia.
    rewrite substring_skip. apply String.eqb_refl.
Qed.

Lemma endsWith_false (s x : string) :
  endsWith s x = false <-> ~ ends_with s x.
Proof.
  rewrite <- endsWith_spec. destruct (endsWith s x); split; congruence.
Qed.

Lemma first_is_spec (s : string) (c : ascii) :
  first_is s c = true <-> starts_with s (String c "").
Proof.
  unfold starts_with. destruct s as [|c0 s]; simpl.
  - split; [discriminate | intros [r Hr]; discriminate].
  - rewrite Ascii.eqb_eq. split.
    + intros ->. now exists s.
    + intros [r Hr]. congruence.
Qed.

Lemma truthy_spec (v : option string) :
  truthy v = true <-> exists h, v = Some h /\ h <> "".
Proof.
  destruct v as [h|]; simpl.
  - rewrite negb_true_iff, String.eqb_neq. split.
    + intros H. now exists h.
    + intros [h' [[= ->] H]]. exact H.
  - split; [discriminate | intros [h [[=] _]]].
Qed.

End StringFacts.

(** ** Deduplication *)

Section Uniq.

Lemma key_eqb_spec (a b : option string) : key_eqb a b = true <-> a = b.
Proof.
  destruct a as [x|], b as [y|]; simpl; try (split; congruence).
  rewrite String.eqb_eq. split; congruence.
Qed.

Lemma indexOf_from_missing (K : Type) (eqb : K -> K -> bool) (l : list K)
      (key : K) (i : Z) :
  (0 <= i)%Z ->
  Z.eqb (indexOf_from eqb i l key) (-1) = negb (existsb (fun x => eqb x key) l).
Proof.
  revert i; induction l as [|x l IH]; intros i Hi; simpl.
  - reflexivity.
  - destruct (eqb x key); simpl.
    + apply Z.eqb_neq. lia.
    + apply IH. lia.
Qed.

(** The test [buffer.indexOf(key) !== -1] holds when [key] is in the
    buffer. *)
Lemma seen_spec (buffer : list (option string)) (key : option string) :
  negb (Z.eqb (indexOf key_eqb buffer key) (-1)) = true <-> In key buffer.
Proof.
  unfold indexOf. rewrite indexOf_from_missing by lia.
  rewrite negb_involutive, existsb_exists. split.
  - intros [x [Hx Hk]]. apply key_eqb_spec in Hk. now subst.
  - intros H. exists key. split; [exact H | now apply key_eqb_spec].
Qed.

Lemma seen_false (buffer : list (option string)) (key : option string) :
  negb (Z.eqb (indexOf key_eqb buffer key) (-1)) = false <-> ~ In key buffer.
Proof.
  rewrite <- seen_spec.
  destruct (negb (Z.eqb (indexOf key_eqb buffer key) (-1))); split; congruence.
Qed.

Lemma uniq_filter_fresh buffer arr entry :
  In entry (uniq_filter buffer arr) ->
  ~ In (entry_url entry) buffer /\ In entry arr.
Proof.
  revert buffer; induction arr as [|x arr IH]; intros buffer; simpl.
  - intros [].
  - destruct (negb (Z.eqb (indexOf key_eqb buffer (entry_url x)) (-1))) eqn:E.
    + intros H. destruct (IH _ H). auto.
    + apply seen_false in E. intros [<-|H].
      * auto.
      * destruct (IH _ H) as [Hn Hin]. split; [|auto].
        intros Hb. apply Hn, in_or_app. now left.
Qed.

Lemma uniq_filter_NoDup buffer arr :
  NoDup (map entry_url (uniq_filter buffer arr)).
Proof.
  revert buffer; induction arr as [|x arr IH]; intros buffer; simpl.
  - constructor.
  - destruct (negb (Z.eqb (indexOf key_eqb buffer (entry_url x)) (-1))).
    + apply IH.
    + simpl. constructor; [|apply IH].
      intros H. apply in_map_iff in H. destruct H as [y [Hy Hin]].
      apply uniq_filter_fresh in Hin. destruct Hin as [Hn _].
      apply Hn, in_or_app. right. rewrite Hy. now left.
Qed.

Lemma uniq_filter_subsequence buffer arr :
  subsequence (uniq_filter buffer arr) arr.
Proof.
  revert buffer; induction arr as [|x arr IH]; intros buffer; simpl.
  - constructor.
  - destruct (negb (Z.eqb (indexOf key_eqb buffer (entry_url x)) (-1)));
      constructor; apply IH.
Qed.

Lemma uniq_filter_first buffer arr key :
  (In key buffer -> first_with_url key (uniq_filter buffer arr) = None)
  /\ (~ In key buffer ->
      first_with_url key (uniq_filter buffer arr) = first_with_url key arr).
Proof.
  unfold first_with_url.
  revert buffer; induction arr as [|x arr IH]; intros buffer; simpl.
  - auto.
  - destruct (negb (Z.eqb (indexOf key_eqb buffer (entry_url x)) (-1))) eqn:E.
    + apply seen_spec in E. destruct (IH buffer) as [IH1 IH2]. split.
      * exact IH1.
      * intros Hn. destruct (key_eqb (entry_url x) key) eqn:K.
        -- apply key_eqb_spec in K. subst. contradiction.
        -- now apply IH2.
    + apply seen_false in E.
      destruct (IH (buffer ++ [entry_url x])%list) as [IH1 IH2].
      simpl. destruct (key_eqb (entry_url x) key) eqn:K.
      * apply key_eqb_spec in K. subst. split; [contradiction | reflexivity].
      * assert (Hk : entry_url x <> key).
        { intros Hk. apply key_eqb_spec in Hk. congruence. }
        split.
        -- intros Hin. apply IH1, in_or_app. now left.
        -- intros Hn. apply IH2. intros Hin. apply in_app_or in Hin.
           destruct Hin as [Hin|[Hin|[]]]; [contradiction | congruence].
Qed.

Lemma uniq_first arr key :
  first_with_url key (uniq arr) = first_with_url key arr.
Proof. unfold uniq. apply uniq_filter_first. intros []. Qed.

End Uniq.

(** C1. When the run reaches line 304, the resources of the final
    manifest are those accumulated by lines 71 to 302 with the repeated
    urls left out: no two entries of the final list have the same url, the
    entries kept are in the order in which they were accumulated, and the
    entry kept for a url is the first one accumulated with that url, with
    its properties. *)
Theorem C1_resources_have_unique_urls (config : Config) (w : world) (s : state) :
  final_state config w = Ok s ->
  exists acc,
    collect config (mark_toc (document w)) (global_retval w) = Ok acc
    /\ NoDup (map entry_url (m_resources (manifest s)))
    /\ subsequence (m_resources (manifest s)) (m_resources (manifest acc))
    /\ forall key,
        first_with_url key (m_resources (manifest s))
        = first_with_url key (m_resources (manifest acc)).
Proof.
  unfold final_state, build_manifest.
  destruct (collect config (mark_toc (document w)) (global_retval w)) as [acc|e];
    [|discriminate].
  intros [= <-]. exists acc. split; [reflexivity|].
  simpl. repeat split.
  - apply uniq_filter_NoDup.
  - apply uniq_filter_subsequence.
  - intros key. apply uniq_first.
Qed.

Lemma C1_resources_have_unique_urls_witness :
  exists s,
    final_state Sample.config Sample.start = Ok s
    /\ NoDup (map entry_url (m_resources (manifest s))).
Proof.
  eexists. split.
  - vm_compute. reflexivity.
  - match goal with
    | |- NoDup (map entry_url (m_resources (manifest ?s))) =>
        destruct (@C1_resources_have_unique_urls Sample.config Sample.start s)
          as [acc [_ [H _]]]; [vm_compute; reflexivity | exact H]
    end.
Defined.

(** ** The callbacks of the scan *)

Lemma append_one_differs (A : Type) (l : list A) (x : A) : (l ++ [x])%list <> l.
Proof.
  intros H. apply (f_equal (@List.length A)) in H.
  rewrite length_app in H. simpl in H. lia.
Qed.

(** The condition of the call sites, case by case. *)
Lemma relative_reference_cases (href : option string) (s : state) :
  (href = None /\ relative_reference href s = (None, s))
  \/ (href = Some "" /\ relative_reference href s = (None, s))
  \/ (exists h, href = Some h /\ h <> "" /\ is_relative h = false
                /\ relative_reference href s = (None, snd (call_is_relative h s)))
  \/ (exists h, href = Some h /\ h <> "" /\ is_relative h = true
                /\ relative_reference href s = (Some h, snd (call_is_relative h s))).
Proof.
  destruct href as [h|]; [|now left].
  right. unfold relative_reference, truthy.
  destruct (String.eqb_spec h "") as [->|Hne]; simpl.
  - now left.
  - right. destruct (is_relative h) eqn:R; [right|left]; exists h; auto.
Qed.

Lemma differs_spec (a : option string) (v : string) :
  differs a v = true <-> a <> Some v.
Proof.
  destruct a as [x|]; simpl.
  - rewrite negb_true_iff, String.eqb_neq. split; congruence.
  - split; [discriminate | reflexivity].
Qed.

Lemma get_set_property_same (V : Type) (key : string) (v : V) o :
  get_property key (set_property key v o) = Some v.
Proof.
  induction o as [|[k x] o IH]; simpl.
  - now rewrite String.eqb_refl.
  - destruct (String.eqb k key) eqn:E; simpl; rewrite E; auto.
Qed.

Lemma get_set_property_other (V : Type) (key k : string) (v : V) o :
  k <> key -> get_property key (set_property k v o) = get_property key o.
Proof.
  intros Hne. induction o as [|[k0 x] o IH]; simpl.
  - apply String.eqb_neq in Hne. now rewrite Hne.
  - destruct (String.eqb_spec k0 k) as [->|Hk]; simpl.
    + apply String.eqb_neq in Hne. now rewrite Hne.
    + now rewrite IH.
Qed.

Lemma get_set_if_truthy_other (key k : string) (v : option string) o :
  k <> key -> get_property key (set_if_truthy k v o) = get_property key o.
Proof.
  intros Hne. unfold set_if_truthy.
  destruct v as [x|]; [destruct (truthy (Some x))|]; auto.
  now apply get_set_property_other.
Qed.

Lemma get_set_if_truthy_same (key : string) (v : option string) o :
  get_property key (set_if_truthy key v o)
  = if truthy v then v else get_property key o.
Proof.
  unfold set_if_truthy.
  destruct v as [x|]; [destruct (truthy (Some x)) eqn:T|]; auto.
  apply get_set_property_same.
Qed.

Ltac property_lookup :=
  unfold entry_url, encodingFormat_of, description_of, rel_of;
  repeat (rewrite get_set_if_truthy_other by discriminate);
  try rewrite get_set_if_truthy_same;
  try reflexivity.

Ltac nothing_pushed :=
  left; split;
  [ reflexivity
  | let h := fresh "h" in
    intros [h [? [? [? ?]]]]; congruence ].

Ltac one_pushed h :=
  right; exists h; eexists;
  split; [eassumption|]; split; [assumption|]; split; [assumption|];
  split; [first [discriminate | intros _; assumption]|]; split;
  [ simpl; reflexivity | property_lookup ].

(** A callback either leaves the list of resources alone or adds one
    entry, whose url is the reference. *)
Lemma callback_effect (k : scanned) (s : state) (e : element) :
  (produces_nothing k s e
   /\ ~ (exists h, getAttribute e (reference_attribute k) = Some h
                   /\ h <> "" /\ is_relative h = true
                   /\ (k = ScanScript -> getAttribute e "class" <> Some "remove")))
  \/ (exists h entry,
         getAttribute e (reference_attribute k) = Some h
         /\ h <> "" /\ is_relative h = true
         /\ (k = ScanScript -> getAttribute e "class" <> Some "remove")
         /\ produces k s e entry
         /\ entry_url entry = Some h).
Proof.
  unfold produces, produces_nothing.
  destruct k; simpl;
    unfold object_callback, img_callback, a_callback, script_callback.
  4: destruct (differs (getAttribute e "class") "remove") eqn:D;
     [ apply differs_spec in D
     | left; split; [reflexivity|];
       intros [h [_ [_ [_ Hc]]]]; specialize (Hc eq_refl);
       apply differs_spec in Hc; congruence ].
  all: match goal with
       | |- context [relative_reference ?href ?s0] =>
           destruct (relative_reference_cases href s0)
             as [[Hr ->]|[[Hr ->]|[[h [Hr [Hne [R ->]]]]|[h [Hr [Hne [R ->]]]]]]]
       end.
  all: try nothing_pushed.
  1-3: one_pushed h.
  destruct (endsWith h ".js").
  - one_pushed h.
  - destruct (getAttribute e "type") as [t|]; [destruct (truthy (Some t))|];
      one_pushed h.
Qed.


(** ** Relative references *)

Lemma is_relative_false (url : string) :
  is_relative url = false
  <-> starts_with url "#" \/ starts_with url "http://"
      \/ starts_with url "https://" \/ starts_with url "mailto:".
Proof.
  unfold is_relative.
  rewrite <- (first_is_spec url "#"), <- !startsWith_spec.
  destruct (first_is url "#"), (startsWith url "http://"),
    (startsWith url "https://"), (startsWith url "mailto:"); simpl;
    intuition congruence.
Qed.

(** C2, as stated, fails: the empty reference of an [a] element is
    classified relative, and no LinkedResource is produced for it. *)
Lemma C2_empty_reference_is_relative_and_skipped :
  let e := mkElement "a" [ ("href", "") ] in
  getAttribute e (reference_attribute ScanA) = Some ""
  /\ is_relative "" = true
  /\ ~ exists entry, produces ScanA Sample.fresh e entry.
Proof.
  simpl. repeat split.
  intros [entry H]. unfold produces in H. simpl in H.
  now apply (@append_one_differs _ static_resources entry).
Qed.

(** C2, amended.  A scanned element ([object] by [data], [img] by [src],
    [a] by [href], [script] by [src]) yields a LinkedResource exactly
    when its reference attribute is present, is not the empty string and
    is classified relative and, for a [script], the class attribute is not
    [remove]; otherwise the list of resources is left as it is.  A
    reference is classified non-relative exactly when it begins with [#],
    [http://], [https://] or [mailto:].  In particular the [a] elements
    with href [#frag] and [https://example.com/x] yield nothing. *)
Theorem C2_resource_iff_nonempty_relative_reference
        (k : scanned) (s : state) (e : element) :
  ((exists entry, produces k s e entry)
   <-> (exists h, getAttribute e (reference_attribute k) = Some h
                  /\ h <> "" /\ is_relative h = true
                  /\ (k = ScanScript -> getAttribute e "class" <> Some "remove")))
  /\ ((~ exists entry, produces k s e entry) -> produces_nothing k s e)
  /\ (forall url,
         is_relative url = false
         <-> starts_with url "#" \/ starts_with url "http://"
             \/ starts_with url "https://" \/ starts_with url "mailto:")
  /\ produces_nothing ScanA s (mkElement "a" [ ("href", "#frag") ])
  /\ produces_nothing ScanA s (mkElement "a" [ ("href", "https://example.com/x") ]).
Proof.
  split; [split|split; [|split; [|split]]].
  - intros [entry H].
    destruct (callback_effect k s e) as [[Hn _]|[h [x [? [? [? [? _]]]]]]].
    + unfold produces, produces_nothing in *. rewrite Hn in H.
      symmetry in H. now apply append_one_differs in H.
    + exists h. auto.
  - intros Hc.
    destruct (callback_effect k s e) as [[_ Hn]|[h [x [_ [_ [_ [_ [H _]]]]]]]].
    + contradiction.
    + now exists x.
  - intros Hn.
    destruct (callback_effect k s e) as [[H _]|[h [x [_ [_ [_ [_ [H _]]]]]]]].
    + exact H.
    + exfalso. apply Hn. now exists x.
  - apply is_relative_false.
  - reflexivity.
  - reflexivity.
Qed.

Lemma C2_resource_iff_nonempty_relative_reference_witness :
  (exists entry,
      produces ScanA Sample.fresh
               (mkElement "a" [ ("href", "other.html") ]) entry)
  /\ produces_nothing ScanA Sample.fresh (mkElement "a" [ ("href", "") ]).
Proof.
  split.
  - apply (proj1 (C2_resource_iff_nonempty_relative_reference
                    ScanA Sample.fresh (mkElement "a" [ ("href", "other.html") ]))).
    exists "other.html". repeat split; discriminate.
  - apply (proj1 (proj2 (C2_resource_iff_nonempty_relative_reference
                           ScanA Sample.fresh (mkElement "a" [ ("href", "") ])))).
    intros [entry H]. unfold produces in H. simpl in H.
    now apply (@append_one_differs _ static_resources entry).
Defined.

(** ** The encoding format of a scanned resource *)

Section Sniffing.

(** Of two endings of one string, the shorter is an ending of the
    longer. *)
Lemma endings_nest (s x y : string) :
  ends_with s x -> ends_with s y ->
  String.length x <= String.length y -> ends_with y x.
Proof.
  intros [p ->] [q Hq]. revert p Hq.
  induction q as [|c q IH]; intros p Hq Hlen.
  - exists p. simpl in Hq. now symmetry.
  - destruct p as [|c' p].
    + apply (f_equal String.length) in Hq. simpl in Hq.
      rewrite length_append in Hq. lia.
    + simpl in Hq. injection Hq as _ Hq. now apply (IH p).
Qed.

Lemma endings_compatible (s x y : string) :
  endsWith s x = true -> endsWith s y = true ->
  endsWith y x || endsWith x y = true.
Proof.
  rewrite !endsWith_spec. intros Hx Hy. apply orb_true_iff.
  destruct (Nat.le_ge_cases (String.length x) (String.length y)).
  - left. apply endsWith_spec. eauto using endings_nest.
  - right. apply endsWith_spec. eauto using endings_nest.
Qed.

Ltac decide_ending h :=
  repeat match goal with
    | |- context [endsWith h ?y] =>
        let E := fresh "E" in
        destruct (endsWith h y) eqn:E; simpl; try reflexivity
    end;
  try congruence;
  try match goal with
    | H1 : endsWith h ?x = true, H2 : endsWith h ?y = true |- _ =>
        let C := fresh in
        assert (C := endings_compatible _ _ _ H1 H2);
        vm_compute in C; discriminate C
    end.

Lemma image_type_sniffed (h : string) : sniffed h (image_type h).
Proof.
  unfold sniffed. rewrite <- !endsWith_false, <- !endsWith_spec.
  unfold image_type.
  repeat split; intros; decide_ending h.
Qed.

Lemma image_type_truthy (h : string) :
  (if truthy (image_type h) then image_type h else None) = image_type h.
Proof. unfold image_type. decide_ending h. Qed.

End Sniffing.

Lemma relative_reference_accepts (href : option string) (h : string) (s : state) :
  href = Some h -> h <> "" -> is_relative h = true ->
  relative_reference href s = (Some h, snd (call_is_relative h s)).
Proof.
  intros -> Hne R. unfold relative_reference, truthy. simpl.
  apply String.eqb_neq in Hne. rewrite Hne, R. reflexivity.
Qed.

Lemma js_or_type_format (type : option string) (h : string) :
  (if truthy (js_or type (image_type h))
   then js_or type (image_type h) else None)
  = match type with
    | Some t => if String.eqb t "" then image_type h else Some t
    | None => image_type h
    end.
Proof.
  unfold js_or. destruct type as [t|]; simpl.
  - destruct (String.eqb t "") eqn:E; simpl.
    + apply image_type_truthy.
    + now rewrite E.
  - apply image_type_truthy.
Qed.

(** C4, as stated, fails for [img]: the type attribute of an [img]
    element is not read, so a relative reference without a listed
    extension gets no encodingFormat although the attribute is there. *)
Lemma C4_img_type_attribute_is_not_read :
  let e := mkElement "img" [ ("src", "pic.dat"); ("type", "image/png") ] in
  getAttribute e "type" = Some "image/png"
  /\ getAttribute e (reference_attribute ScanImg) = Some "pic.dat"
  /\ is_relative "pic.dat" = true
  /\ exists entry,
      produces ScanImg Sample.fresh e entry
      /\ encodingFormat_of entry = None.
Proof.
  simpl. repeat split. eexists. split; reflexivity.
Qed.

(** C4, amended.  For an [object] or [a] element whose reference is
    non-empty and relative, the encodingFormat of the LinkedResource is
    the type attribute of the element when that is present and not empty,
    and otherwise the format the extension table gives for the reference
    (gif, png, bmp, jpg and jpeg, svg, pdf), the property being left out
    when the table gives none.  For an [img] element the type attribute
    is not consulted: the table alone decides. *)
Theorem C4_encodingFormat_of_object_img_a
        (k : scanned) (s : state) (e : element) (h : string) :
  k <> ScanScript ->
  getAttribute e (reference_attribute k) = Some h ->
  h <> "" ->
  is_relative h = true ->
  exists entry,
    produces k s e entry
    /\ entry_url entry = Some h
    /\ sniffed h (image_type h)
    /\ encodingFormat_of entry
       = match k, getAttribute e "type" with
         | ScanImg, _ => image_type h
         | _, Some t => if String.eqb t "" then image_type h else Some t
         | _, None => image_type h
         end.
Proof.
  intros Hk Hr Hne R.
  destruct k; try congruence; simpl in Hr; unfold produces; simpl;
    unfold object_callback, img_callback, a_callback;
    rewrite (relative_reference_accepts s Hr Hne R);
    eexists; (split; [simpl; reflexivity|]);
    (split; [property_lookup|]);
    (split; [apply image_type_sniffed|]);
    property_lookup.
  - apply js_or_type_format.
  - apply image_type_truthy.
  - apply js_or_type_format.
Qed.

Lemma C4_encodingFormat_of_object_img_a_witness :
  exists entry,
    produces ScanObject Sample.fresh
             (mkElement "object" [ ("data", "doc.pdf"); ("type", "") ]) entry
    /\ encodingFormat_of entry = Some "application/pdf".
Proof.
  destruct (@C4_encodingFormat_of_object_img_a
              ScanObject Sample.fresh
              (mkElement "object" [ ("data", "doc.pdf"); ("type", "") ])
              "doc.pdf")
    as [entry [Hp [_ [_ Hf]]]];
    [discriminate | reflexivity | discriminate | reflexivity |].
  exists entry. split; [exact Hp | exact Hf].
Defined.

(** C3, the code at a script that does not end in [.js] and has a type:
    the type attribute is stored as the encodingFormat of the manifest
    itself (line 296), and the LinkedResource of the script has no
    encodingFormat.  A source ending in [.js] gets the fixed type. *)
Theorem C3_script_type_is_stored_on_the_manifest (s : state) :
  let module := mkElement "script" [ ("src", "js/app.mjs"); ("type", "module") ] in
  let plain := mkElement "script" [ ("src", "js/fix.js") ] in
  produces ScanScript s module
           [ ("type", "LinkedResource"); ("url", "js/app.mjs") ]
  /\ encodingFormat_of [ ("type", "LinkedResource"); ("url", "js/app.mjs") ] = None
  /\ m_encodingFormat (manifest (script_callback s module)) = Some "module"
  /\ produces ScanScript s plain
              [ ("type", "LinkedResource"); ("url", "js/fix.js");
                ("encodingFormat", "application/Javascript") ].
Proof. repeat split. Qed.

(** ** What the run preserves *)

Lemma advances_refl (s : state) : advances s s.
Proof.
  repeat split; try (exists []; rewrite app_nil_r; auto).
Qed.

Lemma advances_trans (s1 s2 s3 : state) :
  advances s1 s2 -> advances s2 s3 -> advances s1 s3.
Proof.
  intros [[a1 Ha1] [He1 [Hu1 [Hc1 [c1 [Hk1 Hf1]]]]]]
         [[a2 Ha2] [He2 [Hu2 [Hc2 [c2 [Hk2 Hf2]]]]]].
  repeat split; try congruence.
  - exists (a1 ++ a2)%list. rewrite Ha2, Ha1. now rewrite app_assoc.
  - exists (c1 ++ c2)%list. split.
    + rewrite Hk2, Hk1. now rewrite app_assoc.
    + apply Forall_app. auto.
Qed.

Ltac advance_by added calls :=
  unfold advances; simpl;
  split; [exists added; simpl; rewrite ?app_nil_r; reflexivity|];
  split; [reflexivity|]; split; [reflexivity|]; split; [reflexivity|];
  exists calls; split; [simpl; rewrite ?app_nil_r; reflexivity|];
  repeat constructor; assumption.

Lemma callback_advances (k : scanned) (s : state) (e : element) :
  advances s (callback_of k s e).
Proof.
  destruct k; simpl;
    unfold object_callback, img_callback, a_callback, script_callback.
  4: destruct (differs (getAttribute e "class") "remove");
     [|apply advances_refl].
  all: match goal with
       | |- context [relative_reference ?href ?s0] =>
           destruct (relative_reference_cases href s0)
             as [[Hr ->]|[[Hr ->]|[[h [Hr [Hne [R ->]]]]|[h [Hr [Hne [R ->]]]]]]]
       end.
  all: try apply advances_refl.
  all: try (advance_by (@nil LinkedResource) [h]).
  1-3: match goal with
       | |- advances _ (on_manifest (push ?entry) _) => advance_by [entry] [h]
       end.
  destruct (endsWith h ".js").
  - match goal with
    | |- advances _ (on_manifest (push ?entry) _) => advance_by [entry] [h]
    end.
  - destruct (getAttribute e "type") as [t|]; [destruct (truthy (Some t))|];
      match goal with
      | |- advances _ (on_manifest (push ?entry) _) => advance_by [entry] [h]
      end.
Qed.

Lemma fold_left_advances (f : state -> element -> state) (l : list element) :
  (forall s e, advances s (f s e)) ->
  forall s, advances s (fold_left f l s).
Proof.
  intros Hf. induction l as [|e l IH]; intros s; simpl.
  - apply advances_refl.
  - eapply advances_trans; [apply Hf | apply IH].
Qed.

Lemma scan_advances (doc : node) (s : state) : advances s (scan doc s).
Proof.
  unfold scan, for_each.
  eapply advances_trans;
    [apply fold_left_advances; apply (callback_advances ScanObject)|].
  eapply advances_trans;
    [apply fold_left_advances; apply (callback_advances ScanImg)|].
  eapply advances_trans;
    [apply fold_left_advances; apply (callback_advances ScanA)|].
  apply fold_left_advances; apply (callback_advances ScanScript).
Qed.

(** *** Persons *)

Lemma person_callback_entry (person : Person) (s : state) :
  fst (person_callback person s) = person_entry person
  /\ manifest (snd (person_callback person s)) = manifest s
  /\ is_relative_calls (snd (person_callback person s)) = is_relative_calls s.
Proof.
  unfold person_callback, person_entry.
  destruct (person_url person), (person_companyURL person); simpl; auto.
Qed.

Lemma array_map_person_callback (people : list Person) (s : state) :
  fst (array_map person_callback people s) = map person_entry people
  /\ manifest (snd (array_map person_callback people s)) = manifest s
  /\ is_relative_calls (snd (array_map person_callback people s))
     = is_relative_calls s.
Proof.
  revert s; induction people as [|p people IH]; intros s; cbn [array_map].
  - auto.
  - destruct (person_callback_entry p s) as [Hy [Hm Hc]].
    destruct (person_callback p s) as [y s1]. simpl in Hy, Hm, Hc.
    destruct (IH s1) as [Hys [Hm' Hc']].
    destruct (array_map person_callback people s1) as [ys s2].
    simpl in *. repeat split; congruence.
Qed.

Lemma person_key_callback_spec (config : Config) (s : state) (key target : string) :
  manifest (person_key_callback config s (key, target))
  = match config_get config key with
    | Some people => with_people target (map person_entry people) (manifest s)
    | None => manifest s
    end
  /\ is_relative_calls (person_key_callback config s (key, target))
     = is_relative_calls s.
Proof.
  unfold person_key_callback.
  destruct (config_get config key) as [people|]; [|auto].
  destruct (array_map_person_callback people s) as [H1 [H2 H3]].
  destruct (array_map person_callback people s) as [objs s1]. simpl in *.
  subst objs. rewrite H2, H3. auto.
Qed.

Lemma add_persons_spec (config : Config) (s : state) :
  m_resources (manifest (add_persons config s)) = m_resources (manifest s)
  /\ m_editor (manifest (add_persons config s))
     = people_of (editors config) (m_editor (manifest s))
  /\ m_author (manifest (add_persons config s))
     = people_of (authors config) (m_author (manifest s))
  /\ m_creator (manifest (add_persons config s))
     = people_of (creators config) (m_creator (manifest s))
  /\ is_relative_calls (add_persons config s) = is_relative_calls s.
Proof.
  unfold add_persons, person_keys_mapping. cbn [fold_left].
  set (s1 := person_key_callback config s ("editors", "editor")).
  set (s2 := person_key_callback config s1 ("authors", "author")).
  destruct (person_key_callback_spec config s "editors" "editor") as [M1 C1].
  destruct (person_key_callback_spec config s1 "authors" "author") as [M2 C2].
  destruct (person_key_callback_spec config s2 "creators" "creator") as [M3 C3].
  fold s1 in M1, C1. fold s2 in M2, C2.
  rewrite M3, C3, M2, C2, M1, C1. unfold config_get. simpl.
  destruct (editors config), (authors config), (creators config); simpl; auto.
Qed.

(** ** The run as a whole *)

Lemma collect_ok (config : Config) (doc : node) (g : option value) (s : state) :
  collect config doc g = Ok s ->
  exists u t,
    querySelector (ByTagClass "a" "u-url") doc = Some u
    /\ querySelector (ByTagClass "time" "dt-published") doc = Some t
    /\ s = scan doc
             (on_manifest (add_orcid doc)
                (on_manifest (add_status_resources config)
                   (add_persons config
                      (mkState (initial_manifest config (getAttribute u "href")
                                                 (getAttribute t "datetime"))
                               g [])))).
Proof.
  unfold collect.
  destruct (querySelector (ByTagClass "a" "u-url") doc) as [u|]; [|discriminate].
  destruct (querySelector (ByTagClass "time" "dt-published") doc) as [t|];
    [|discriminate].
  intros [= <-]. exists u, t. auto.
Qed.

Lemma final_state_ok (config : Config) (w : world) (s : state) :
  final_state config w = Ok s ->
  exists acc,
    collect config (mark_toc (document w)) (global_retval w) = Ok acc
    /\ s = deduplicate acc.
Proof.
  unfold final_state, build_manifest.
  destruct (collect config (mark_toc (document w)) (global_retval w)) as [acc|];
    [|discriminate].
  intros [= <-]. now exists acc.
Qed.

Lemma push_if_resources (A : Type) (v : option A) (entry : A -> LinkedResource)
      (m : Manifest) :
  m_resources (push_if v entry m)
  = (m_resources m ++ match v with Some x => [entry x] | None => [] end)%list
  /\ m_editor (push_if v entry m) = m_editor m
  /\ m_author (push_if v entry m) = m_author m
  /\ m_creator (push_if v entry m) = m_creator m.
Proof.
  destruct v; simpl; rewrite ?app_nil_r; auto.
Qed.

Lemma add_status_resources_people (config : Config) (m : Manifest) :
  m_editor (add_status_resources config m) = m_editor m
  /\ m_author (add_status_resources config m) = m_author m
  /\ m_creator (add_status_resources config m) = m_creator m.
Proof.
  unfold add_status_resources.
  destruct (styleFile (status_switch config)), (logoFile (status_switch config)),
    (watermark (status_switch config)); simpl; auto.
Qed.

Lemma add_orcid_spec (doc : node) (m : Manifest) :
  (exists added, m_resources (add_orcid doc m) = (m_resources m ++ added)%list)
  /\ m_editor (add_orcid doc m) = m_editor m
  /\ m_author (add_orcid doc m) = m_author m
  /\ m_creator (add_orcid doc m) = m_creator m.
Proof.
  unfold add_orcid.
  destruct (querySelector (ByTagClass "span" "orcid") doc); simpl.
  - split; [now exists [orcid_resource] | auto].
  - split; [exists []; now rewrite app_nil_r | auto].
Qed.

(** ** C10: the classifier never sees the empty string *)

(** C10.  In every run that reaches line 304, [is_relative] has been
    applied to non-empty strings only; and a callback of the scan whose
    element has no reference attribute, or an empty one, leaves the state
    as it is: it adds no LinkedResource and does not call [is_relative]. *)
Theorem C10_empty_reference_is_not_classified
        (config : Config) (w : world) (s : state) :
  final_state config w = Ok s ->
  Forall (fun url => url <> "") (is_relative_calls s)
  /\ forall (k : scanned) (s0 : state) (e : element),
      getAttribute e (reference_attribute k) = None
      \/ getAttribute e (reference_attribute k) = Some "" ->
      callback_of k s0 e = s0.
Proof.
  intros H. split.
  - apply final_state_ok in H. destruct H as [acc [Hacc ->]].
    apply collect_ok in Hacc. destruct Hacc as [u [t [_ [_ ->]]]].
    simpl.
    match goal with
    | |- Forall _ (is_relative_calls (scan ?doc ?s1)) =>
        destruct (scan_advances doc s1) as [_ [_ [_ [_ [calls [Hc Hf]]]]]];
        rewrite Hc
    end.
    simpl. destruct (add_persons_spec config
      (mkState (initial_manifest config (getAttribute u "href")
                                 (getAttribute t "datetime"))
               (global_retval w) [])) as [_ [_ [_ [_ Hp]]]].
    rewrite Hp. simpl. exact Hf.
  - intros k s0 e Hr.
    destruct k; simpl in *;
      unfold object_callback, img_callback, a_callback, script_callback.
    4: destruct (differs (getAttribute e "class") "remove"); [|reflexivity].
    all: destruct Hr as [-> | ->]; reflexivity.
Qed.

Lemma C10_empty_reference_is_not_classified_witness :
  exists s,
    final_state Sample.config Sample.start = Ok s
    /\ Forall (fun url => url <> "") (is_relative_calls s)
    /\ a_callback s (mkElement "a" [ ("href", "") ]) = s.
Proof.
  eexists. split.
  - vm_compute. reflexivity.
  - match goal with
    | |- Forall _ (is_relative_calls ?s) /\ _ =>
        destruct (@C10_empty_reference_is_not_classified
                    Sample.config Sample.start s)
          as [Hf Hk]; [vm_compute; reflexivity|];
        split; [exact Hf|];
        apply (Hk ScanA s (mkElement "a" [ ("href", "") ]));
        right; reflexivity
    end.
Defined.

(** ** C5: the unofficial status *)

Lemma upper_char_either_case (l c : ascii) :
  is_lower l = true ->
  Ascii.eqb c l || Ascii.eqb c (ascii_of_nat (nat_of_ascii l - 32)) = true ->
  upper_char c = upper_char l.
Proof.
  intros Hl Hc. apply orb_true_iff in Hc.
  rewrite !Ascii.eqb_eq in Hc.
  destruct l as [[] [] [] [] [] [] [] []]; try discriminate Hl;
    destruct Hc as [-> | ->]; reflexivity.
Qed.

Lemma any_case_toUpperCase (word s : string) :
  all_lower word = true ->
  any_case_of word s = true ->
  toUpperCase s = toUpperCase word.
Proof.
  revert s; induction word as [|l word IH]; intros [|c s]; simpl;
    try discriminate; try reflexivity.
  intros Hl Hs. apply andb_true_iff in Hl, Hs.
  destruct Hl as [Hl Hw], Hs as [Hc Hs].
  unfold toUpperCase in *. simpl. f_equal.
  - now apply upper_char_either_case.
  - now apply IH.
Qed.

Lemma status_switch_unofficial (config : Config) :
  any_case_of "unofficial" (specStatus config) = true ->
  status_switch config
  = mkStatusFiles (Some "W3C-UD") (Some "UD.png") "image/png"
                  (Some "UD-watermark.png").
Proof.
  intros H. apply any_case_toUpperCase in H; [|reflexivity].
  unfold status_switch. rewrite H. reflexivity.
Qed.

Lemma uniq_filter_keeps buffer entry rest :
  ~ In (entry_url entry) buffer ->
  uniq_filter buffer (entry :: rest)
  = entry :: uniq_filter (buffer ++ [entry_url entry]) rest.
Proof.
  intros H. simpl. apply seen_false in H. now rewrite H.
Qed.

(** C5.  When the specStatus of the configuration is [unofficial] in any
    letter case, the status dispatch adds exactly three resources, in this
    order: a stylesheet whose url ends in [W3C-UD], a logo whose url ends
    in [UD.png] with encodingFormat [image/png], and a watermark whose url
    ends in [UD-watermark.png]; the resources of the final manifest are
    the two static ones, these three, and what the document adds. *)
Theorem C5_unofficial_adds_three_resources (config : Config) (m : Manifest) :
  any_case_of "unofficial" (specStatus config) = true ->
  exists stylesheet logo watermark,
    m_resources (add_status_resources config m)
    = (m_resources m ++ [stylesheet; logo; watermark])%list
    /\ (exists u, entry_url stylesheet = Some u /\ ends_with u "W3C-UD")
    /\ rel_of stylesheet = Some "stylesheet"
    /\ (exists u, entry_url logo = Some u /\ ends_with u "UD.png")
    /\ encodingFormat_of logo = Some "image/png"
    /\ (exists u, entry_url watermark = Some u /\ ends_with u "UD-watermark.png")
    /\ forall w s,
        final_state config w = Ok s ->
        exists rest,
          m_resources (manifest s)
          = (static_resources ++ [stylesheet; logo; watermark] ++ rest)%list.
Proof.
  intros H.
  exists (style_resource "W3C-UD"), (logo_resource "UD.png" "image/png"),
    (watermark_resource "UD-watermark.png").
  assert (Hadd : forall m0,
             m_resources (add_status_resources config m0)
             = (m_resources m0
                ++ [style_resource "W3C-UD"; logo_resource "UD.png" "image/png";
                    watermark_resource "UD-watermark.png"])%list).
  { intros m0. unfold add_status_resources.
    rewrite (status_switch_unofficial config H). simpl.
    now rewrite <- !app_assoc. }
  split; [apply Hadd|].
  split; [eexists; split; [reflexivity|];
          now exists "https://www.w3.org/StyleSheets/TR/2016/"|].
  split; [reflexivity|].
  split; [eexists; split; [reflexivity|];
          now exists "https://www.w3.org/StyleSheets/TR/2016/logos/"|].
  split; [reflexivity|].
  split; [eexists; split; [reflexivity|];
          now exists "https://www.w3.org/StyleSheets/TR/2016/logos/"|].
  intros w s Hs.
  apply final_state_ok in Hs. destruct Hs as [acc [Hacc ->]].
  apply collect_ok in Hacc. destruct Hacc as [u [t [_ [_ ->]]]].
  simpl.
  match goal with
  | |- context [scan ?doc ?s1] =>
      destruct (scan_advances doc s1) as [[added Ha] _]; rewrite Ha
  end.
  simpl.
  match goal with
  | |- context [add_orcid ?doc ?m1] =>
      destruct (add_orcid_spec doc m1) as [[orcid Ho] _]; rewrite Ho
  end.
  rewrite Hadd.
  match goal with
  | |- context [add_persons config ?s0] =>
      destruct (add_persons_spec config s0) as [Hp _]; rewrite Hp
  end.
  simpl. unfold uniq.
  repeat (rewrite uniq_filter_keeps
           by (simpl; intuition discriminate); simpl).
  eexists. reflexivity.
Qed.

Lemma C5_unofficial_adds_three_resources_witness :
  exists rest,
    m_resources (add_status_resources Sample.config (manifest Sample.fresh))
    = (static_resources ++ rest)%list
    /\ List.length rest = 3.
Proof.
  destruct (@C5_unofficial_adds_three_resources
              Sample.config (manifest Sample.fresh))
    as [stylesheet [logo [watermark [H _]]]]; [reflexivity|].
  exists [stylesheet; logo; watermark]. split; [exact H | reflexivity].
Defined.

(** ** C6: the person lists *)

(** C6.  In the manifest that is serialized, the properties [editor],
    [author] and [creator] are the lists of the Person entries of the
    configuration keys [editors], [authors] and [creators], in their
    order; a key that the configuration does not have leaves the manifest
    without the property. *)
Theorem C6_person_lists (config : Config) (w : world) (s : state) :
  final_state config w = Ok s ->
  manifest_property "editor" (manifest s)
  = option_map (fun l => VArray (map person_entry l)) (editors config)
  /\ manifest_property "author" (manifest s)
     = option_map (fun l => VArray (map person_entry l)) (authors config)
  /\ manifest_property "creator" (manifest s)
     = option_map (fun l => VArray (map person_entry l)) (creators config).
Proof.
  intros Hs.
  apply final_state_ok in Hs. destruct Hs as [acc [Hacc ->]].
  apply collect_ok in Hacc. destruct Hacc as [u [t [_ [_ ->]]]].
  unfold manifest_property, manifest_value. simpl.
  match goal with
  | |- context [scan ?doc ?s1] =>
      destruct (scan_advances doc s1) as [_ [He [Ha [Hc _]]]];
      rewrite He, Ha, Hc
  end.
  simpl.
  match goal with
  | |- context [add_orcid ?doc ?m1] =>
      destruct (add_orcid_spec doc m1) as [_ [He' [Ha' Hc']]];
      rewrite He', Ha', Hc'
  end.
  match goal with
  | |- context [add_status_resources config ?m1] =>
      destruct (add_status_resources_people config m1) as [He2 [Ha2 Hc2]];
      rewrite He2, Ha2, Hc2
  end.
  match goal with
  | |- context [add_persons config ?s0] =>
      destruct (add_persons_spec config s0) as [_ [He3 [Ha3 [Hc3 _]]]];
      rewrite He3, Ha3, Hc3
  end.
  simpl.
  match goal with
  | |- context [option_map VString ?x] => destruct x
  end;
    destruct (editors config), (authors config), (creators config);
    simpl; auto.
Qed.

Lemma C6_person_lists_witness :
  exists s,
    final_state Sample.config Sample.start = Ok s
    /\ manifest_property "editor" (manifest s)
       = Some (VArray
                 [ VObject
                     [ ("type", VString "Person");
                       ("name", VString "A");
                       ("affiliation",
                        VObject [ ("type", VString "Organization");
                                  ("name", VString "C") ]) ] ])
    /\ manifest_property "author" (manifest s) = None.
Proof.
  eexists. split.
  - vm_compute. reflexivity.
  - match goal with
    | |- manifest_property _ (manifest ?s) = _ /\ _ =>
        destruct (@C6_person_lists Sample.config Sample.start s)
          as [He [Ha _]]; [vm_compute; reflexivity|];
        split; [exact He | exact Ha]
    end.
Defined.

(** ** The document tree under mutation *)

Section Tree.

Lemma node_induction (P : node -> Prop) :
  (forall data, P (Text data)) ->
  (forall e kids, Forall P kids -> P (Element e kids)) ->
  forall n, P n.
Proof.
  intros HT HE. fix IH 1. intros [e kids|data].
  - apply HE. induction kids as [|k kids IHk]; constructor.
    + apply IH.
    + exact IHk.
  - apply HT.
Qed.

Variable p : element -> bool.

Lemma update_first_elements (g : element -> element) (n n' : node) :
  update_first p (fun e kids => Element (g e) kids) n = Some n' ->
  rewritten p g (elements n) (elements n').
Proof.
  revert n'. induction n as [data|e kids IH] using node_induction;
    intros n'; simpl.
  - discriminate.
  - destruct (p e) eqn:Pe.
    + intros [= <-]. exists [], e, (flat_map elements kids). simpl. auto.
    + destruct (update_first_of
                  (update_first p (fun e0 kids0 => Element (g e0) kids0)) kids)
        as [kids'|] eqn:E; [|discriminate].
      intros [= <-]. simpl.
      assert (H : rewritten p g (flat_map elements kids) (flat_map elements kids')).
      { clear Pe. revert kids' E.
        induction IH as [|k kids Hk _ IHkids]; intros kids'; simpl.
        - discriminate.
        - destruct (update_first p (fun e0 kids0 => Element (g e0) kids0) k)
            as [k'|] eqn:Ek.
          + intros [= <-]. simpl.
            destruct (Hk k' eq_refl) as [l1 [e1 [l2 [H1 [H2 H3]]]]].
            exists l1, e1, (l2 ++ flat_map elements kids)%list.
            rewrite H1, H2, <- !app_assoc. simpl. auto.
          + destruct (update_first_of
                        (update_first p (fun e0 kids0 => Element (g e0) kids0))
                        kids) as [kids1|]; [|discriminate].
            intros [= <-]. simpl.
            destruct (IHkids kids1 eq_refl) as [l1 [e1 [l2 [H1 [H2 H3]]]]].
            exists (elements k ++ l1)%list, e1, l2.
            rewrite H1, H2, <- !app_assoc. auto. }
      destruct H as [l1 [e1 [l2 [H1 [H2 H3]]]]].
      exists (e :: l1), e1, l2. rewrite H1, H2. simpl. auto.
Qed.

Lemma update_first_none (f : element -> list node -> node) (n : node) :
  update_first p f n = None -> filter p (elements n) = [].
Proof.
  induction n as [data|e kids IH] using node_induction; simpl.
  - reflexivity.
  - destruct (p e) eqn:Pe; [discriminate|].
    destruct (update_first_of (update_first p f) kids) as [kids'|] eqn:E;
      [discriminate|].
    intros _. clear Pe.
    induction IH as [|k kids Hk _ IHkids]; simpl in *.
    + reflexivity.
    + destruct (update_first p f k) as [k'|]; [discriminate|].
      destruct (update_first_of (update_first p f) kids); [discriminate|].
      rewrite filter_app, Hk, IHkids; auto.
Qed.

End Tree.

Lemma is_toc_nav (e : element) : is_toc e = true -> tagName e = "nav".
Proof.
  unfold is_toc, matches. intros H. apply andb_true_iff in H.
  now apply String.eqb_eq.
Qed.

(** Marking the table of contents changes no answer to a query for
    another tag than [nav]. *)
Lemma mark_toc_queries (sel : selector) (doc : node) :
  (forall e, tagName e = "nav" -> matches sel e = false) ->
  querySelectorAll sel (mark_toc doc) = querySelectorAll sel doc.
Proof.
  intros Hsel. unfold mark_toc.
  destruct (update_first is_toc
              (fun e kids => Element (setAttribute "role" "doc-toc" e) kids) doc)
    as [doc1|] eqn:E; [|reflexivity].
  apply update_first_elements in E.
  destruct E as [l1 [e [l2 [H1 [H2 H3]]]]].
  unfold querySelectorAll. rewrite H1, H2, !filter_app. simpl.
  apply is_toc_nav in H3.
  rewrite (Hsel e H3), (Hsel (setAttribute "role" "doc-toc" e) H3).
  reflexivity.
Qed.

Ltac other_tag :=
  let e := fresh "e" in
  let H := fresh "H" in
  intros e H; unfold matches; rewrite H; reflexivity.

Lemma mark_toc_url (doc : node) :
  querySelector (ByTagClass "a" "u-url") (mark_toc doc)
  = querySelector (ByTagClass "a" "u-url") doc.
Proof. unfold querySelector. rewrite mark_toc_queries; [reflexivity | other_tag]. Qed.

Lemma mark_toc_published (doc : node) :
  querySelector (ByTagClass "time" "dt-published") (mark_toc doc)
  = querySelector (ByTagClass "time" "dt-published") doc.
Proof. unfold querySelector. rewrite mark_toc_queries; [reflexivity | other_tag]. Qed.

(** An HTML document has its head when the manifest is appended. *)
Lemma head_found (m : Manifest) (d : html_document) :
  exists doc1, append_to_head m (mark_toc (documentElement d)) = Ok doc1.
Proof.
  unfold append_to_head.
  match goal with
  | |- context [update_first ?p ?f ?n] =>
      destruct (update_first p f n) as [doc1|] eqn:E
  end.
  - now exists doc1.
  - apply update_first_none in E.
    change (querySelectorAll (ByTag "head") (mark_toc (documentElement d)) = [])
      in E.
    rewrite mark_toc_queries in E by other_tag.
    discriminate E.
Qed.

(** ** C9: two runs from the same document *)

Lemma on_manifest_alike (f : Manifest -> Manifest) (s1 s2 : state) :
  alike s1 s2 -> alike (on_manifest f s1) (on_manifest f s2).
Proof. intros [Hm Hc]. split; simpl; congruence. Qed.

Lemma relative_reference_alike (href : option string) (s1 s2 : state) :
  alike s1 s2 ->
  fst (relative_reference href s1) = fst (relative_reference href s2)
  /\ alike (snd (relative_reference href s1)) (snd (relative_reference href s2)).
Proof.
  intros [Hm Hc]. unfold relative_reference, call_is_relative.
  destruct href as [h|]; [destruct (truthy (Some h))|]; simpl;
    repeat split; auto; simpl; congruence.
Qed.

Lemma callback_alike (k : scanned) (e : element) (s1 s2 : state) :
  alike s1 s2 -> alike (callback_of k s1 e) (callback_of k s2 e).
Proof.
  intros H.
  destruct k; simpl;
    unfold object_callback, img_callback, a_callback, script_callback.
  4: destruct (differs (getAttribute e "class") "remove"); [|exact H].
  all: match goal with
       | |- context [relative_reference ?href _] =>
           destruct (relative_reference_alike href H) as [Hf Hs];
           destruct (relative_reference href s1) as [r1 t1];
           destruct (relative_reference href s2) as [r2 t2];
           simpl in Hf, Hs; subst r2; destruct r1 as [h|]; [|exact Hs]
       end.
  1-3: now apply on_manifest_alike.
  destruct (endsWith h ".js").
  - now apply on_manifest_alike.
  - apply on_manifest_alike.
    destruct (getAttribute e "type") as [t|]; [destruct (truthy (Some t))|];
      try exact Hs.
    now apply on_manifest_alike.
Qed.

Lemma fold_left_alike (f : state -> element -> state) (l : list element) :
  (forall e s1 s2, alike s1 s2 -> alike (f s1 e) (f s2 e)) ->
  forall s1 s2, alike s1 s2 -> alike (fold_left f l s1) (fold_left f l s2).
Proof.
  intros Hf. induction l as [|e l IH]; intros s1 s2 H; simpl; auto.
Qed.

Lemma scan_alike (doc : node) (s1 s2 : state) :
  alike s1 s2 -> alike (scan doc s1) (scan doc s2).
Proof.
  intros H. unfold scan, for_each.
  apply fold_left_alike; [apply (callback_alike ScanScript)|].
  apply fold_left_alike; [apply (callback_alike ScanA)|].
  apply fold_left_alike; [apply (callback_alike ScanImg)|].
  apply fold_left_alike; [apply (callback_alike ScanObject)|].
  exact H.
Qed.

Lemma person_key_callback_alike (config : Config) (entry : string * string)
      (s1 s2 : state) :
  alike s1 s2 ->
  alike (person_key_callback config s1 entry) (person_key_callback config s2 entry).
Proof.
  intros [Hm Hc]. destruct entry as [key target].
  destruct (person_key_callback_spec config s1 key target) as [M1 C1].
  destruct (person_key_callback_spec config s2 key target) as [M2 C2].
  split; [rewrite M1, M2, Hm | rewrite C1, C2, Hc]; reflexivity.
Qed.

Lemma add_persons_alike (config : Config) (s1 s2 : state) :
  alike s1 s2 -> alike (add_persons config s1) (add_persons config s2).
Proof.
  unfold add_persons. revert s1 s2.
  induction person_keys_mapping as [|entry l IH]; intros s1 s2 H; simpl; auto.
  apply IH. now apply person_key_callback_alike.
Qed.

Lemma build_manifest_alike (config : Config) (doc : node) (g1 g2 : option value) :
  match build_manifest config doc g1, build_manifest config doc g2 with
  | Ok s1, Ok s2 => alike s1 s2
  | Throw e1, Throw e2 => e1 = e2
  | _, _ => False
  end.
Proof.
  unfold build_manifest, collect.
  destruct (querySelector (ByTagClass "a" "u-url") doc) as [u|]; [|reflexivity].
  destruct (querySelector (ByTagClass "time" "dt-published") doc) as [t|];
    [|reflexivity].
  unfold deduplicate. apply on_manifest_alike, scan_alike.
  do 2 apply on_manifest_alike. apply add_persons_alike.
  split; reflexivity.
Qed.

(** C9.  Two runs on the same configuration and the same document end
    alike, whatever an earlier run has left in the global [retval]: both
    abort with the same error, or both complete with the same text of the
    manifest and the same resulting document. *)
Theorem C9_same_document_same_manifest
        (config : Config) (doc : node) (g1 g2 : option value) :
  manifest_text config (mkWorld doc g1) = manifest_text config (mkWorld doc g2)
  /\ match create_manifest config (mkWorld doc g1),
           create_manifest config (mkWorld doc g2) with
     | Ok w1, Ok w2 => document w1 = document w2
     | Throw e1, Throw e2 => e1 = e2
     | _, _ => False
     end.
Proof.
  unfold manifest_text, create_manifest, final_state.
  cbn [document global_retval].
  pose proof (build_manifest_alike config (mark_toc doc) g1 g2) as H.
  destruct (build_manifest config (mark_toc doc) g1) as [s1|e1],
    (build_manifest config (mark_toc doc) g2) as [s2|e2];
    try contradiction.
  - destruct H as [Hm _]. rewrite Hm.
    destruct (append_to_head (manifest s2) (mark_toc doc)) as [doc1|e];
      split; reflexivity.
  - subst e2. split; reflexivity.
Qed.

(** ** C8: the image example *)

Lemma advances_keeps (s s' : state) (entry : LinkedResource) :
  advances s s' ->
  In entry (m_resources (manifest s)) -> In entry (m_resources (manifest s')).
Proof.
  intros [[added Ha] _] H. rewrite Ha. apply in_or_app. now left.
Qed.

(** The entry a callback adds for an element of the list it runs over is
    among the resources at the end of the loop. *)
Lemma fold_left_covers (k : scanned) (l : list element) (e : element)
      (entry : LinkedResource) :
  In e l ->
  (forall s, produces k s e entry) ->
  forall s, In entry (m_resources (manifest (fold_left (callback_of k) l s))).
Proof.
  intros Hin Hp. induction l as [|x l IH]; intros s; simpl.
  - destruct Hin.
  - destruct Hin as [->|Hin].
    + apply (@advances_keeps (callback_of k s e)).
      * apply fold_left_advances. apply callback_advances.
      * rewrite (Hp s). apply in_or_app. right. now left.
    + now apply IH.
Qed.

Lemma scan_covers (k : scanned) (doc : node) (e : element)
      (entry : LinkedResource) (s : state) :
  In e (querySelectorAll (ByTag (scanned_tag k)) doc) ->
  (forall s0, produces k s0 e entry) ->
  In entry (m_resources (manifest (scan doc s))).
Proof.
  intros Hin Hp. unfold scan, for_each.
  assert (A : forall k0 l s0, advances s0 (fold_left (callback_of k0) l s0)).
  { intros k0 l s0. apply fold_left_advances. apply callback_advances. }
  destruct k; simpl in Hin.
  - eapply advances_keeps; [apply (A ScanScript)|].
    eapply advances_keeps; [apply (A ScanA)|].
    eapply advances_keeps; [apply (A ScanImg)|].
    now apply (@fold_left_covers ScanObject _ e).
  - eapply advances_keeps; [apply (A ScanScript)|].
    eapply advances_keeps; [apply (A ScanA)|].
    now apply (@fold_left_covers ScanImg _ e).
  - eapply advances_keeps; [apply (A ScanScript)|].
    now apply (@fold_left_covers ScanA _ e).
  - now apply (@fold_left_covers ScanScript _ e).
Qed.

(** C8.  An [img] element with src [pic.png] and alt [cap] yields the
    LinkedResource with url [pic.png], encodingFormat [image/png] and
    description [cap]; when the element is in the document, that entry is
    among the resources the run accumulates, and the final manifest has
    an entry for the url [pic.png]. *)
Theorem C8_img_with_alt (s : state) (e : element) :
  getAttribute e "src" = Some "pic.png" ->
  getAttribute e "alt" = Some "cap" ->
  let entry := [ ("type", "LinkedResource"); ("url", "pic.png");
                 ("encodingFormat", "image/png"); ("description", "cap") ] in
  produces ScanImg s e entry
  /\ entry_url entry = Some "pic.png"
  /\ encodingFormat_of entry = Some "image/png"
  /\ description_of entry = Some "cap"
  /\ forall config w acc,
      In e (querySelectorAll (ByTag "img") (document w)) ->
      collect config (mark_toc (document w)) (global_retval w) = Ok acc ->
      In entry (m_resources (manifest acc))
      /\ exists kept,
          first_with_url (Some "pic.png") (uniq (m_resources (manifest acc)))
          = Some kept.
Proof.
  intros Hsrc Halt entry.
  assert (Hp : forall s0, produces ScanImg s0 e entry).
  { intros s0. unfold produces. simpl. unfold img_callback.
    rewrite (@relative_reference_accepts _ "pic.png" s0 Hsrc)
      by (discriminate || reflexivity).
    rewrite Halt. reflexivity. }
  split; [apply Hp|].
  split; [reflexivity|]. split; [reflexivity|]. split; [reflexivity|].
  intros config w acc Hin Hacc.
  assert (Hacc_in : In entry (m_resources (manifest acc))).
  { apply collect_ok in Hacc. destruct Hacc as [u [t [_ [_ ->]]]].
    apply (@scan_covers ScanImg _ e); [|exact Hp].
    simpl. rewrite mark_toc_queries by other_tag. exact Hin. }
  split; [exact Hacc_in|].
  rewrite uniq_first. unfold first_with_url.
  destruct (find (fun x => key_eqb (entry_url x) (Some "pic.png"))
                 (m_resources (manifest acc))) as [kept|] eqn:F.
  - now exists kept.
  - apply (find_none _ _ F) in Hacc_in. discriminate Hacc_in.
Qed.

Lemma C8_img_with_alt_witness :
  produces ScanImg Sample.fresh
           (mkElement "img" [ ("src", "pic.png"); ("alt", "cap") ])
           [ ("type", "LinkedResource"); ("url", "pic.png");
             ("encodingFormat", "image/png"); ("description", "cap") ].
Proof.
  apply (@C8_img_with_alt Sample.fresh
           (mkElement "img" [ ("src", "pic.png"); ("alt", "cap") ]));
    reflexivity.
Defined.

(** * The rest of the function *)

Import Layout.

(** ** More on [uniq], lines 36 to 48 *)

Lemma uniq_filter_fixes (buffer : list (option string)) (arr : list LinkedResource) :
  NoDup (map entry_url arr) ->
  (forall key, In key buffer -> ~ In key (map entry_url arr)) ->
  uniq_filter buffer arr = arr.
Proof.
  revert buffer; induction arr as [|x arr IH]; intros buffer Hnd Hb.
  - reflexivity.
  - simpl in Hnd. apply NoDup_cons_iff in Hnd. destruct Hnd as [Hx Hnd].
    rewrite uniq_filter_keeps.
    + f_equal. apply IH; [exact Hnd|].
      intros key Hk Hin. apply in_app_or in Hk. destruct Hk as [Hk|[<-|[]]].
      * apply (Hb key Hk). simpl. now right.
      * contradiction.
    + intros Hin. apply (Hb _ Hin). simpl. now left.
Qed.

Lemma uniq_filter_length (buffer : list (option string)) (arr : list LinkedResource) :
  List.length (uniq_filter buffer arr) <= List.length arr.
Proof.
  revert buffer; induction arr as [|x arr IH]; intros buffer; simpl.
  - lia.
  - destruct (negb (Z.eqb (indexOf key_eqb buffer (entry_url x)) (-1))); simpl.
    + specialize (IH buffer). lia.
    + specialize (IH (buffer ++ [entry_url x])%list). lia.
Qed.

(** X1.  A list in which no url occurs twice is left as it is. *)
Theorem uniq_fixes_lists_without_repeated_urls (arr : list LinkedResource) :
  NoDup (map entry_url arr) -> uniq arr = arr.
Proof.
  intros H. unfold uniq. apply uniq_filter_fixes; [exact H | intros key []].
Qed.

Lemma uniq_fixes_lists_without_repeated_urls_witness :
  uniq static_resources = static_resources.
Proof.
  apply uniq_fixes_lists_without_repeated_urls.
  simpl. repeat constructor; simpl; intuition discriminate.
Defined.

(** X2.  [uniq] is idempotent. *)
Theorem uniq_idempotent (arr : list LinkedResource) :
  uniq (uniq arr) = uniq arr.
Proof.
  unfold uniq at 1.
  apply uniq_filter_fixes; [apply uniq_filter_NoDup | intros key []].
Qed.

Lemma url_in_iff_found (key : option string) (l : list LinkedResource) :
  In key (map entry_url l) <-> first_with_url key l <> None.
Proof.
  unfold first_with_url. split.
  - intros H. apply in_map_iff in H. destruct H as [x [Hx Hin]].
    intros F. apply (find_none _ _ F) in Hin.
    rewrite Hx in Hin.
    assert (K : key_eqb key key = true) by now apply key_eqb_spec.
    congruence.
  - destruct (find (fun entry => key_eqb (entry_url entry) key) l)
      as [x|] eqn:F; [|congruence].
    intros _. apply find_some in F. destruct F as [Hin Hk].
    apply key_eqb_spec in Hk. apply in_map_iff. now exists x.
Qed.

Lemma url_in_uniq (key : option string) (arr : list LinkedResource) :
  In key (map entry_url (uniq arr)) <-> In key (map entry_url arr).
Proof. rewrite !url_in_iff_found, uniq_first. reflexivity. Qed.

(** X3.  [uniq] loses no url: a url occurs in the result exactly when it
    occurs in the argument, and the result is never longer. *)
Theorem uniq_keeps_every_url (arr : list LinkedResource) (key : option string) :
  (In key (map entry_url (uniq arr)) <-> In key (map entry_url arr))
  /\ List.length (uniq arr) <= List.length arr.
Proof.
  split; [apply url_in_uniq | apply uniq_filter_length].
Qed.

(** ** The status dispatch, lines 140 to 209 *)

Lemma add_status_resources_adds (config : Config) (m : Manifest) :
  m_resources (add_status_resources config m)
  = (m_resources m ++ status_resources config)%list.
Proof.
  unfold add_status_resources, status_resources.
  destruct (styleFile (status_switch config)),
    (logoFile (status_switch config)), (watermark (status_switch config));
    simpl; rewrite <- ?app_assoc; simpl; rewrite ?app_nil_r; reflexivity.
Qed.

Lemma lower_upper_char (c : ascii) : lower_char (upper_char c) = lower_char c.
Proof. destruct c as [[] [] [] [] [] [] [] []]; reflexivity. Qed.

Lemma toLowerCase_toUpperCase (s : string) :
  toLowerCase (toUpperCase s) = toLowerCase s.
Proof.
  unfold toLowerCase, toUpperCase.
  induction s as [|c s IH]; simpl; [reflexivity|].
  now rewrite lower_upper_char, IH.
Qed.

(** X4.  For the statuses FINDING, FINDING-DRAFT and BASE, in any letter
    case, the status dispatch leaves the manifest as it is: no stylesheet,
    no logo, no watermark. *)
Theorem status_without_resources (config : Config) (m : Manifest) :
  In (toUpperCase (specStatus config)) [ "FINDING"; "FINDING-DRAFT"; "BASE" ] ->
  add_status_resources config m = m.
Proof.
  intros H. unfold add_status_resources, status_switch.
  destruct m. simpl in H.
  destruct H as [<-|[<-|[<-|[]]]]; reflexivity.
Qed.

Lemma status_without_resources_witness :
  add_status_resources (mkConfig "x" "Finding-Draft" None None None)
                       (manifest Sample.fresh)
  = manifest Sample.fresh.
Proof. apply status_without_resources. simpl. tauto. Defined.

(** X5.  For the community and business group statuses (CG-DRAFT,
    CG-FINAL, BG-DRAFT, BG-FINAL, in any letter case) the dispatch adds
    two resources: the stylesheet named by the status in lower case,
    without the [W3C-] prefix, and the logo [back-<status>.png] in lower
    case with encodingFormat [image/png]. *)
Theorem status_of_groups (config : Config) (m : Manifest) (code : string) :
  In code [ "CG-DRAFT"; "CG-FINAL"; "BG-DRAFT"; "BG-FINAL" ] ->
  toUpperCase (specStatus config) = code ->
  m_resources (add_status_resources config m)
  = (m_resources m
     ++ [ style_resource (toLowerCase code);
          logo_resource ("back-" ++ toLowerCase code ++ ".png") "image/png" ])%list.
Proof.
  intros Hin Hup. rewrite add_status_resources_adds. f_equal.
  unfold status_resources, status_switch.
  rewrite <- (toLowerCase_toUpperCase (specStatus config)), Hup.
  simpl in Hin. destruct Hin as [<-|[<-|[<-|[<-|[]]]]]; reflexivity.
Qed.

Lemma status_of_groups_witness :
  m_resources (add_status_resources (mkConfig "x" "Cg-Draft" None None None)
                                    (manifest Sample.fresh))
  = (static_resources
     ++ [ style_resource "cg-draft";
          logo_resource "back-cg-draft.png" "image/png" ])%list.
Proof.
  apply (@status_of_groups (mkConfig "x" "Cg-Draft" None None None)
           (manifest Sample.fresh) "CG-DRAFT").
  - simpl. tauto.
  - reflexivity.
Defined.

(** X6.  The working-draft statuses FPWD, LC, WD-NOTE and LC-NOTE add the
    stylesheet [W3C-WD] and the logo [WD]; the note statuses WG-NOTE and
    FPWD-NOTE add the stylesheet [W3C-WG-NOTE] and the logo [WG-Note].
    The logos are SVG and there is no watermark. *)
Theorem status_of_drafts_and_notes (config : Config) (m : Manifest) (code : string) :
  In code [ "FPWD"; "LC"; "WD-NOTE"; "LC-NOTE"; "WG-NOTE"; "FPWD-NOTE" ] ->
  toUpperCase (specStatus config) = code ->
  m_resources (add_status_resources config m)
  = (m_resources m
     ++ if String.eqb code "WG-NOTE" || String.eqb code "FPWD-NOTE"
        then [ style_resource "W3C-WG-NOTE";
               logo_resource "WG-Note" "image/svg+xml" ]
        else [ style_resource "W3C-WD"; logo_resource "WD" "image/svg+xml" ])%list.
Proof.
  intros Hin Hup. rewrite add_status_resources_adds. f_equal.
  unfold status_resources, status_switch. rewrite Hup.
  simpl in Hin. destruct Hin as [<-|[<-|[<-|[<-|[<-|[<-|[]]]]]]]; reflexivity.
Qed.

Lemma status_of_drafts_and_notes_witness :
  m_resources (add_status_resources (mkConfig "x" "fpwd-note" None None None)
                                    (manifest Sample.fresh))
  = (static_resources
     ++ [ style_resource "W3C-WG-NOTE";
          logo_resource "WG-Note" "image/svg+xml" ])%list.
Proof.
  apply (@status_of_drafts_and_notes (mkConfig "x" "fpwd-note" None None None)
           (manifest Sample.fresh) "FPWD-NOTE").
  - simpl. tauto.
  - reflexivity.
Defined.

Lemma status_switch_default (config : Config) :
  ~ In (toUpperCase (specStatus config)) known_statuses ->
  status_resources config
  = [ style_resource ("W3C-" ++ toUpperCase (specStatus config));
      logo_resource (toUpperCase (specStatus config)) "image/svg+xml" ].
Proof.
  intros H. unfold status_resources, status_switch.
  repeat match goal with
    | |- context [String.eqb (toUpperCase (specStatus config)) ?c] =>
        destruct (String.eqb_spec (toUpperCase (specStatus config)) c) as [E|_];
        [ exfalso; apply H; rewrite E; unfold known_statuses; simpl; tauto | ]
    end.
  reflexivity.
Qed.

(** X7.  An ASCII status that in upper case is none of the fourteen codes
    of the switch is not refused: the dispatch adds the stylesheet
    [W3C-<STATUS>] and the SVG logo [<STATUS>], the status in upper case,
    and no watermark. *)
Theorem status_unknown (config : Config) (m : Manifest) :
  ascii_only (specStatus config) = true ->
  ~ In (toUpperCase (specStatus config)) known_statuses ->
  m_resources (add_status_resources config m)
  = (m_resources m
     ++ [ style_resource ("W3C-" ++ toUpperCase (specStatus config));
          logo_resource (toUpperCase (specStatus config)) "image/svg+xml" ])%list.
Proof.
  intros _ H. rewrite add_status_resources_adds. f_equal.
  now apply status_switch_default.
Qed.

Lemma status_unknown_witness :
  m_resources (add_status_resources (mkConfig "x" "ed" None None None)
                                    (manifest Sample.fresh))
  = (static_resources
     ++ [ style_resource "W3C-ED"; logo_resource "ED" "image/svg+xml" ])%list.
Proof.
  apply (@status_unknown (mkConfig "x" "ed" None None None)
           (manifest Sample.fresh)).
  - reflexivity.
  - unfold known_statuses. simpl. intuition discriminate.
Defined.

(** ** What the scan adds, lines 229 to 302 *)

Ltac one_pushed_typed h :=
  right; exists h; eexists;
  split; [eassumption|]; split; [assumption|]; split; [assumption|];
  split; [first [discriminate | intros _; assumption]|]; split;
  [ simpl; reflexivity | split; property_lookup ].

(** A callback adds nothing, or one well-formed entry whose url is the
    accepted reference of the element. *)
Lemma callback_adds (k : scanned) (s : state) (e : element) :
  produces_nothing k s e
  \/ (exists h entry,
         getAttribute e (reference_attribute k) = Some h
         /\ h <> "" /\ is_relative h = true
         /\ (k = ScanScript -> getAttribute e "class" <> Some "remove")
         /\ produces k s e entry
         /\ entry_url entry = Some h
         /\ get_property "type" entry = Some "LinkedResource").
Proof.
  unfold produces, produces_nothing.
  destruct k; simpl;
    unfold object_callback, img_callback, a_callback, script_callback.
  4: destruct (differs (getAttribute e "class") "remove") eqn:D;
     [ apply differs_spec in D | now left ].
  all: match goal with
       | |- context [relative_reference ?href ?s0] =>
           destruct (relative_reference_cases href s0)
             as [[Hr ->]|[[Hr ->]|[[h [Hr [Hne [R ->]]]]|[h [Hr [Hne [R ->]]]]]]]
       end.
  all: try (left; reflexivity).
  1-3: one_pushed_typed h.
  destruct (endsWith h ".js").
  - one_pushed_typed h.
  - destruct (getAttribute e "type") as [t|]; [destruct (truthy (Some t))|];
      one_pushed_typed h.
Qed.

Lemma fold_left_adds (k : scanned) (doc : node) (l : list element) (s : state) :
  (forall e, In e l -> In e (querySelectorAll (ByTag (scanned_tag k)) doc)) ->
  exists added,
    m_resources (manifest (fold_left (callback_of k) l s))
    = (m_resources (manifest s) ++ added)%list
    /\ Forall (fun entry => from_kind doc k entry /\ well_formed entry) added.
Proof.
  revert s; induction l as [|e l IH]; intros s Hl; simpl.
  - exists []. rewrite app_nil_r. auto.
  - destruct (IH (callback_of k s e)) as [added [Ha Hf]].
    { intros x Hx. apply Hl. now right. }
    destruct (callback_adds k s e)
      as [Hn|[h [entry [Hr [Hne [R [Hc [Hp [Hu Ht]]]]]]]]].
    + exists added. unfold produces_nothing in Hn. rewrite Ha, Hn. auto.
    + exists (entry :: added). unfold produces in Hp.
      rewrite Ha, Hp, <- app_assoc. split; [reflexivity|].
      constructor; [|exact Hf]. split.
      * exists e, h. repeat split; auto. apply Hl. now left.
      * split; [exact Ht | now exists h].
Qed.

Lemma from_kind_document (doc : node) (k : scanned) (entry : LinkedResource) :
  from_kind doc k entry -> from_document doc entry.
Proof. intros [e [h H]]. now exists k, e, h. Qed.

Lemma from_kind_mark_toc (doc : node) (k : scanned) (entry : LinkedResource) :
  from_kind (mark_toc doc) k entry -> from_kind doc k entry.
Proof.
  intros [e [h [Hin H]]]. exists e, h. split; [|exact H].
  rewrite mark_toc_queries in Hin; [exact Hin|].
  destruct k; other_tag.
Qed.

Lemma scan_adds (doc : node) (s : state) :
  exists objects images links scripts,
    m_resources (manifest (scan doc s))
    = (m_resources (manifest s) ++ objects ++ images ++ links ++ scripts)%list
    /\ Forall (fun entry => from_kind doc ScanObject entry /\ well_formed entry)
              objects
    /\ Forall (fun entry => from_kind doc ScanImg entry /\ well_formed entry)
              images
    /\ Forall (fun entry => from_kind doc ScanA entry /\ well_formed entry) links
    /\ Forall (fun entry => from_kind doc ScanScript entry /\ well_formed entry)
              scripts.
Proof.
  unfold scan, for_each.
  set (s1 := fold_left object_callback (querySelectorAll (ByTag "object") doc) s).
  set (s2 := fold_left img_callback (querySelectorAll (ByTag "img") doc) s1).
  set (s3 := fold_left a_callback (querySelectorAll (ByTag "a") doc) s2).
  destruct (@fold_left_adds ScanObject doc _ s (fun e H => H)) as [a1 [H1 F1]].
  destruct (@fold_left_adds ScanImg doc _ s1 (fun e H => H)) as [a2 [H2 F2]].
  destruct (@fold_left_adds ScanA doc _ s2 (fun e H => H)) as [a3 [H3 F3]].
  destruct (@fold_left_adds ScanScript doc _ s3 (fun e H => H)) as [a4 [H4 F4]].
  simpl in H1, H2, H3, H4. fold s1 in H1, H2. fold s2 in H2, H3. fold s3 in H3, H4.
  exists a1, a2, a3, a4. split; [|auto].
  rewrite H4, H3, H2, H1, <- !app_assoc. reflexivity.
Qed.

Lemma from_document_mark_toc (doc : node) (entry : LinkedResource) :
  from_document (mark_toc doc) entry -> from_document doc entry.
Proof.
  intros [k [e [h [Hin H]]]]. exists k, e, h. split; [|exact H].
  rewrite mark_toc_queries in Hin; [exact Hin|].
  destruct k; other_tag.
Qed.

Lemma orcid_resources_mark_toc (doc : node) :
  orcid_resources (mark_toc doc) = orcid_resources doc.
Proof.
  unfold orcid_resources, querySelector.
  rewrite mark_toc_queries; [reflexivity | other_tag].
Qed.

(** The resources accumulated by lines 71 to 302, in their order. *)
Lemma collect_layout_by_kind (config : Config) (doc : node) (g : option value)
      (acc : state) :
  collect config doc g = Ok acc ->
  exists objects images links scripts,
    m_resources (manifest acc)
    = (static_resources ++ status_resources config ++ orcid_resources doc
       ++ objects ++ images ++ links ++ scripts)%list
    /\ Forall (fun entry => from_kind doc ScanObject entry /\ well_formed entry)
              objects
    /\ Forall (fun entry => from_kind doc ScanImg entry /\ well_formed entry)
              images
    /\ Forall (fun entry => from_kind doc ScanA entry /\ well_formed entry) links
    /\ Forall (fun entry => from_kind doc ScanScript entry /\ well_formed entry)
              scripts.
Proof.
  intros H. apply collect_ok in H. destruct H as [u [t [_ [_ ->]]]].
  match goal with
  | |- context [scan doc ?s1] =>
      destruct (scan_adds doc s1) as [a1 [a2 [a3 [a4 [Ha Hf]]]]]
  end.
  exists a1, a2, a3, a4. split; [|exact Hf]. rewrite Ha. simpl.
  unfold add_orcid, orcid_resources.
  destruct (querySelector (ByTagClass "span" "orcid") doc); simpl;
    rewrite add_status_resources_adds;
    match goal with
    | |- context [add_persons config ?s0] =>
        destruct (add_persons_spec config s0) as [Hp _]; rewrite Hp
    end;
    simpl; rewrite <- ?app_assoc; reflexivity.
Qed.

Lemma collect_layout (config : Config) (doc : node) (g : option value) (acc : state) :
  collect config doc g = Ok acc ->
  exists added,
    m_resources (manifest acc)
    = (static_resources ++ status_resources config ++ orcid_resources doc
       ++ added)%list
    /\ Forall (fun entry => from_document doc entry /\ well_formed entry) added.
Proof.
  intros H.
  destruct (collect_layout_by_kind _ _ _ H)
    as [a1 [a2 [a3 [a4 [Ha [F1 [F2 [F3 F4]]]]]]]].
  exists (a1 ++ a2 ++ a3 ++ a4)%list. split; [exact Ha|].
  repeat (apply Forall_app; split);
    (eapply Forall_impl; [|eassumption]);
    intros entry [Hk Hw]; split; eauto using from_kind_document.
Qed.

(** X8.  The resources of the final manifest are, with repeated urls
    left out, the two static resources, then those of the status, then
    the ORCID logo when the document has a [span.orcid], then those of the
    [object] elements, of the [img] elements, of the [a] elements and of
    the [script] elements, in this order.  Every scanned entry has as url
    a non-empty relative reference of an element of its kind in the
    document: fragments, absolute urls and mail addresses never get in by
    the scan. *)
Theorem final_resources_layout (config : Config) (w : world) (s : state) :
  final_state config w = Ok s ->
  exists objects images links scripts,
    m_resources (manifest s)
    = uniq (static_resources ++ status_resources config
            ++ orcid_resources (document w)
            ++ objects ++ images ++ links ++ scripts)%list
    /\ Forall (from_kind (document w) ScanObject) objects
    /\ Forall (from_kind (document w) ScanImg) images
    /\ Forall (from_kind (document w) ScanA) links
    /\ Forall (from_kind (document w) ScanScript) scripts
    /\ forall entry,
        In entry (m_resources (manifest s)) ->
        In entry static_resources
        \/ In entry (status_resources config)
        \/ entry = orcid_resource
        \/ from_document (document w) entry.
Proof.
  intros H. apply final_state_ok in H. destruct H as [acc [Hacc ->]].
  destruct (collect_layout_by_kind _ _ _ Hacc)
    as [a1 [a2 [a3 [a4 [Ha [F1 [F2 [F3 F4]]]]]]]].
  assert (Hk : forall k l,
             Forall (fun entry => from_kind (mark_toc (document w)) k entry
                                  /\ well_formed entry) l ->
             Forall (from_kind (document w) k) l).
  { intros k l Hl. eapply Forall_impl; [|exact Hl].
    intros entry [Hd _]. now apply from_kind_mark_toc. }
  apply Hk in F1, F2, F3, F4.
  exists a1, a2, a3, a4. simpl. rewrite Ha, orcid_resources_mark_toc.
  split; [reflexivity|]. repeat (split; [assumption|]).
  intros entry Hin. apply uniq_filter_fresh in Hin. destruct Hin as [_ Hin].
  apply in_app_or in Hin. destruct Hin as [Hin|Hin]; [now left|].
  apply in_app_or in Hin. destruct Hin as [Hin|Hin]; [now right; left|].
  apply in_app_or in Hin. destruct Hin as [Hin|Hin].
  - right; right; left. unfold orcid_resources in Hin.
    destruct (querySelector (ByTagClass "span" "orcid") (document w));
      simpl in Hin; intuition.
  - right; right; right.
    rewrite Forall_forall in F1, F2, F3, F4.
    repeat (apply in_app_or in Hin; destruct Hin as [Hin|Hin]);
      eauto using from_kind_document.
Qed.

Lemma final_resources_layout_witness :
  exists s,
    final_state Sample.config Sample.start = Ok s
    /\ forall entry,
        In entry (m_resources (manifest s)) ->
        In entry static_resources
        \/ In entry (status_resources Sample.config)
        \/ entry = orcid_resource
        \/ from_document (document Sample.start) entry.
Proof.
  eexists. split.
  - vm_compute. reflexivity.
  - match goal with
    | |- forall entry, In entry (m_resources (manifest ?s)) -> _ =>
        destruct (@final_resources_layout Sample.config Sample.start s)
          as [a1 [a2 [a3 [a4 [_ [_ [_ [_ [_ H]]]]]]]]];
          [vm_compute; reflexivity | exact H]
    end.
Defined.

(** ** Every accepted element is in the manifest *)

Lemma fold_left_reaches (k : scanned) (l : list element) (e : element)
      (h : string) (s : state) :
  In e l ->
  getAttribute e (reference_attribute k) = Some h ->
  h <> "" ->
  is_relative h = true ->
  (k = ScanScript -> getAttribute e "class" <> Some "remove") ->
  In (Some h)
     (map entry_url (m_resources (manifest (fold_left (callback_of k) l s)))).
Proof.
  intros Hin Hr Hne R Hc. revert s.
  induction l as [|x l IH]; intros s; simpl.
  - destruct Hin.
  - destruct Hin as [->|Hin]; [|now apply IH].
    destruct (callback_effect k s e)
      as [[_ Hn]|[h' [entry [Hr' [_ [_ [_ [Hp Hu]]]]]]]].
    + exfalso. apply Hn. now exists h.
    + assert (h' = h) by congruence. subst h'.
      apply in_map_iff. exists entry. split; [exact Hu|].
      apply (@advances_keeps (callback_of k s e)).
      * apply fold_left_advances. apply callback_advances.
      * unfold produces in Hp. rewrite Hp. apply in_or_app. right. now left.
Qed.

Lemma advances_keeps_url (s s' : state) (key : option string) :
  advances s s' ->
  In key (map entry_url (m_resources (manifest s))) ->
  In key (map entry_url (m_resources (manifest s'))).
Proof.
  intros [[added Ha] _] H. rewrite Ha, map_app. apply in_or_app. now left.
Qed.

Lemma scan_reaches (doc : node) (k : scanned) (e : element) (h : string)
      (s : state) :
  accepted doc k e h ->
  In (Some h) (map entry_url (m_resources (manifest (scan doc s)))).
Proof.
  intros [Hin [Hr [Hne [R Hc]]]]. unfold scan, for_each.
  assert (A : forall k0 l s0, advances s0 (fold_left (callback_of k0) l s0)).
  { intros k0 l s0. apply fold_left_advances. apply callback_advances. }
  destruct k; simpl in Hin.
  - eapply advances_keeps_url; [apply (A ScanScript)|].
    eapply advances_keeps_url; [apply (A ScanA)|].
    eapply advances_keeps_url; [apply (A ScanImg)|].
    now apply (@fold_left_reaches ScanObject _ e).
  - eapply advances_keeps_url; [apply (A ScanScript)|].
    eapply advances_keeps_url; [apply (A ScanA)|].
    now apply (@fold_left_reaches ScanImg _ e).
  - eapply advances_keeps_url; [apply (A ScanScript)|].
    now apply (@fold_left_reaches ScanA _ e).
  - now apply (@fold_left_reaches ScanScript _ e).
Qed.

(** X9.  Every [object], [img], [a] and [script] element of the document
    whose reference is not empty and is relative (a script being not
    marked [remove]) has its reference among the urls of the final
    manifest. *)
Theorem every_accepted_reference_is_listed
        (config : Config) (w : world) (s : state)
        (k : scanned) (e : element) (h : string) :
  final_state config w = Ok s ->
  accepted (document w) k e h ->
  In (Some h) (map entry_url (m_resources (manifest s))).
Proof.
  intros H Hacc. apply final_state_ok in H. destruct H as [acc [Hc ->]].
  apply collect_ok in Hc. destruct Hc as [u [t [_ [_ ->]]]].
  simpl. apply url_in_uniq. apply (@scan_reaches _ k e).
  destruct Hacc as [Hin Hrest]. split; [|exact Hrest].
  rewrite mark_toc_queries; [exact Hin|]. destruct k; other_tag.
Qed.

Lemma every_accepted_reference_is_listed_witness :
  exists s,
    final_state Sample.config Sample.start = Ok s
    /\ In (Some "other.html") (map entry_url (m_resources (manifest s))).
Proof.
  eexists. split.
  - vm_compute. reflexivity.
  - match goal with
    | |- In _ (map entry_url (m_resources (manifest ?s))) =>
        apply (@every_accepted_reference_is_listed
                 Sample.config Sample.start s ScanA
                 (mkElement "a" [ ("href", "other.html"); ("title", "Other");
                                  ("rel", "next") ])
                 "other.html");
        [ vm_compute; reflexivity | ]
    end.
    repeat split; try discriminate. vm_compute. tauto.
Defined.

(** ** The fixed part of the manifest, lines 71 to 118 and 212 to 219 *)

Lemma find_app (A : Type) (f : A -> bool) (l1 l2 : list A) :
  find f (l1 ++ l2)
  = match find f l1 with
    | Some x => Some x
    | None => find f l2
    end.
Proof.
  induction l1 as [|x l1 IH]; simpl; [reflexivity|].
  destruct (f x); auto.
Qed.

Lemma status_urls (config : Config) (entry : LinkedResource) :
  In entry (status_resources config) ->
  well_formed entry /\ exists x, entry_url entry = Some (TR_2016 ++ x).
Proof.
  unfold status_resources.
  destruct (styleFile (status_switch config)) as [f1|],
    (logoFile (status_switch config)) as [f2|],
    (watermark (status_switch config)) as [f3|]; simpl;
    intros H;
    repeat match goal with
      | H : _ \/ _ |- _ => destruct H as [<-|H]
      | H : False |- _ => destruct H
      end.
  all: split; [split; [reflexivity | eexists; reflexivity]|].
  all: first [ now exists f1
             | now exists ("logos/" ++ f2)
             | now exists ("logos/" ++ f3) ].
Qed.

Lemma status_has_no_orcid (config : Config) :
  find (fun entry => key_eqb (entry_url entry) (Some "images/orcid.gif"))
       (status_resources config) = None.
Proof.
  destruct (find (fun entry => key_eqb (entry_url entry) (Some "images/orcid.gif"))
                 (status_resources config)) as [entry|] eqn:F; [|reflexivity].
  apply find_some in F. destruct F as [Hin Hk].
  apply status_urls in Hin. destruct Hin as [_ [x Hx]].
  rewrite Hx in Hk. discriminate Hk.
Qed.

(** X10.  The two static resources are always the first two of the final
    manifest, as they are written.  When the document has a [span.orcid],
    the entry of the final manifest for the url [images/orcid.gif] is the
    fixed ORCID logo, also when an element of the document refers to that
    file. *)
Theorem fixed_resources_come_first (config : Config) (w : world) (s : state) :
  final_state config w = Ok s ->
  (exists rest, m_resources (manifest s) = (static_resources ++ rest)%list)
  /\ (querySelector (ByTagClass "span" "orcid") (document w) <> None ->
      first_with_url (Some "images/orcid.gif") (m_resources (manifest s))
      = Some orcid_resource).
Proof.
  intros H. apply final_state_ok in H. destruct H as [acc [Hacc ->]].
  destruct (collect_layout _ _ _ Hacc) as [added [Ha _]].
  simpl. rewrite Ha, orcid_resources_mark_toc. split.
  - unfold uniq. simpl.
    repeat (rewrite uniq_filter_keeps by (simpl; intuition discriminate); simpl).
    eexists. reflexivity.
  - intros Ho. rewrite uniq_first. unfold first_with_url.
    rewrite find_app. simpl. rewrite find_app, status_has_no_orcid.
    unfold orcid_resources.
    destruct (querySelector (ByTagClass "span" "orcid") (document w));
      [reflexivity | congruence].
Qed.

Lemma fixed_resources_come_first_witness :
  exists s rest,
    final_state Sample.config Sample.start = Ok s
    /\ m_resources (manifest s) = (static_resources ++ rest)%list.
Proof.
  eexists.
  match goal with
  | |- exists rest, final_state _ _ = Ok ?s /\ _ =>
      assert (H : final_state Sample.config Sample.start = Ok s)
        by (vm_compute; reflexivity);
      destruct (@fixed_resources_come_first Sample.config Sample.start s H)
        as [[rest Hr] _]
  end.
  exists rest. split; [exact H | exact Hr].
Defined.

(** *** The header *)

Lemma same_header_refl (m : Manifest) : same_header m m.
Proof. repeat split. Qed.

Lemma same_header_trans (m1 m2 m3 : Manifest) :
  same_header m1 m2 -> same_header m2 m3 -> same_header m1 m3.
Proof.
  unfold same_header. intros H1 H2.
  repeat match goal with H : _ /\ _ |- _ => destruct H end.
  repeat split; congruence.
Qed.

Lemma callback_header (k : scanned) (s : state) (e : element) :
  same_header (manifest s) (manifest (callback_of k s e)).
Proof.
  destruct k; simpl;
    unfold object_callback, img_callback, a_callback, script_callback.
  4: destruct (differs (getAttribute e "class") "remove");
     [|apply same_header_refl].
  all: match goal with
       | |- context [relative_reference ?href ?s0] =>
           destruct (relative_reference_cases href s0)
             as [[Hr ->]|[[Hr ->]|[[h [Hr [Hne [R ->]]]]|[h [Hr [Hne [R ->]]]]]]]
       end.
  all: try (destruct (endsWith h ".js"));
    destruct (getAttribute e "type") as [t|]; try (destruct (truthy (Some t)));
    repeat split.
Qed.

Lemma fold_left_header (k : scanned) (l : list element) (s : state) :
  same_header (manifest s) (manifest (fold_left (callback_of k) l s)).
Proof.
  revert s; induction l as [|e l IH]; intros s; simpl.
  - apply same_header_refl.
  - eapply same_header_trans; [apply callback_header | apply IH].
Qed.

Lemma scan_header (doc : node) (s : state) :
  same_header (manifest s) (manifest (scan doc s)).
Proof.
  unfold scan, for_each.
  eapply same_header_trans; [apply (fold_left_header ScanObject)|].
  eapply same_header_trans; [apply (fold_left_header ScanImg)|].
  eapply same_header_trans; [apply (fold_left_header ScanA)|].
  apply (fold_left_header ScanScript).
Qed.

Lemma add_persons_header (config : Config) (s : state) :
  same_header (manifest s) (manifest (add_persons config s)).
Proof.
  unfold add_persons. revert s.
  induction person_keys_mapping as [|[key target] l IH]; intros s;
    cbn [fold_left].
  - apply same_header_refl.
  - eapply same_header_trans; [|apply IH].
    destruct (person_key_callback_spec config s key target) as [M _].
    rewrite M. destruct (config_get config key); repeat split.
Qed.

Lemma add_status_resources_header (config : Config) (m : Manifest) :
  same_header m (add_status_resources config m).
Proof.
  unfold add_status_resources.
  destruct (styleFile (status_switch config)), (logoFile (status_switch config)),
    (watermark (status_switch config)); repeat split.
Qed.

Lemma add_orcid_header (doc : node) (m : Manifest) :
  same_header m (add_orcid doc m).
Proof.
  unfold add_orcid.
  destruct (querySelector (ByTagClass "span" "orcid") doc); repeat split.
Qed.

(** X11.  In the final manifest the id is [https://www.w3.org/TR/]
    followed by the short name and a slash; the url and the date are the
    [href] of the first [a.u-url] and the [datetime] of the first
    [time.dt-published], and an attribute that is missing there gives the
    property the value null, it is not left out; the links, the type, the
    contexts and the access modes are the constants of lines 72 to 105.
    Nothing after line 118 changes any of them. *)
Theorem final_header (config : Config) (w : world) (s : state) :
  final_state config w = Ok s ->
  exists u t,
    querySelector (ByTagClass "a" "u-url") (document w) = Some u
    /\ querySelector (ByTagClass "time" "dt-published") (document w) = Some t
    /\ m_id (manifest s) = "https://www.w3.org/TR/" ++ shortName config ++ "/"
    /\ m_url (manifest s) = getAttribute u "href"
    /\ m_datePublished (manifest s) = getAttribute t "datetime"
    /\ manifest_property "url" (manifest s) = Some (or_null (getAttribute u "href"))
    /\ manifest_property "datePublished" (manifest s)
       = Some (or_null (getAttribute t "datetime"))
    /\ m_links (manifest s) = static_links
    /\ m_type (manifest s) = "TechArticle"
    /\ m_context (manifest s)
       = [ "https://schema.org"; "https://www.w3.org/ns/pub-context" ]
    /\ m_accessMode (manifest s) = [ "textual"; "diagramOnVisual" ]
    /\ m_accessModeSufficient (manifest s) = [ "textual" ].
Proof.
  intros H. apply final_state_ok in H. destruct H as [acc [Hacc ->]].
  apply collect_ok in Hacc. destruct Hacc as [u [t [Hu [Ht ->]]]].
  rewrite mark_toc_url in Hu. rewrite mark_toc_published in Ht.
  exists u, t. split; [exact Hu|]. split; [exact Ht|].
  set (m0 := initial_manifest config (getAttribute u "href")
                              (getAttribute t "datetime")).
  set (s0 := mkState m0 (global_retval w) []).
  set (s1 := add_persons config s0).
  set (s2 := on_manifest (add_status_resources config) s1).
  set (s3 := on_manifest (add_orcid (mark_toc (document w))) s2).
  set (s4 := scan (mark_toc (document w)) s3).
  assert (Hh : same_header m0 (manifest s4)).
  { apply same_header_trans with (manifest s1);
      [apply (add_persons_header config s0)|].
    apply same_header_trans with (manifest s2);
      [apply (add_status_resources_header config (manifest s1))|].
    apply same_header_trans with (manifest s3);
      [apply (add_orcid_header (mark_toc (document w)) (manifest s2))|].
    apply (scan_header (mark_toc (document w)) s3). }
  destruct Hh as [H1 [H2 [H3 [H4 [H5 [H6 [H7 H8]]]]]]].
  unfold manifest_property, manifest_value, deduplicate.
  cbn [manifest on_manifest with_resources m_context m_type m_accessMode
       m_accessModeSufficient m_links m_id m_url m_datePublished get_property
       String.eqb Ascii.eqb Bool.eqb app].
  rewrite H1, H2, H3, H4, H5, H6, H7, H8. repeat split.
Qed.

Lemma final_header_witness :
  exists s,
    final_state Sample.config Sample.start = Ok s
    /\ m_id (manifest s) = "https://www.w3.org/TR/sample/".
Proof.
  eexists. split.
  - vm_compute. reflexivity.
  - match goal with
    | |- m_id (manifest ?s) = _ =>
        destruct (@final_header Sample.config Sample.start s)
          as [u [t [_ [_ [H _]]]]]; [vm_compute; reflexivity | exact H]
    end.
Defined.

(** X12.  Every resource of the final manifest has the type
    [LinkedResource] and a url. *)
Theorem final_resources_well_formed (config : Config) (w : world) (s : state) :
  final_state config w = Ok s ->
  Forall well_formed (m_resources (manifest s)).
Proof.
  intros H. apply final_state_ok in H. destruct H as [acc [Hacc ->]].
  destruct (collect_layout _ _ _ Hacc) as [added [Ha Hf]].
  simpl. rewrite Ha. apply Forall_forall. intros entry Hin.
  apply uniq_filter_fresh in Hin. destruct Hin as [_ Hin].
  apply in_app_or in Hin. destruct Hin as [Hin|Hin].
  { simpl in Hin. destruct Hin as [<-|[<-|[]]];
      (split; [reflexivity | eexists; reflexivity]). }
  apply in_app_or in Hin. destruct Hin as [Hin|Hin].
  { now apply status_urls in Hin. }
  apply in_app_or in Hin. destruct Hin as [Hin|Hin].
  - unfold orcid_resources in Hin.
    destruct (querySelector (ByTagClass "span" "orcid") (mark_toc (document w)));
      simpl in Hin; [|contradiction].
    destruct Hin as [<-|[]]. split; [reflexivity | eexists; reflexivity].
  - rewrite Forall_forall in Hf. now apply Hf.
Qed.

Lemma final_resources_well_formed_witness :
  exists s,
    final_state Sample.config Sample.start = Ok s
    /\ Forall well_formed (m_resources (manifest s)).
Proof.
  eexists. split.
  - vm_compute. reflexivity.
  - apply (@final_resources_well_formed Sample.config Sample.start).
    vm_compute. reflexivity.
Defined.

(** ** The other attributes that the scan copies *)

Lemma truthy_non_empty (v : option string) :
  (if truthy v then v else None) = non_empty v.
Proof.
  destruct v as [x|]; simpl; [|reflexivity].
  destruct (String.eqb x ""); reflexivity.
Qed.

Ltac lookup_all :=
  unfold entry_url, encodingFormat_of, description_of, rel_of;
  repeat first [ rewrite get_set_if_truthy_other by discriminate
               | rewrite get_set_if_truthy_same ];
  simpl get_property; rewrite ?truthy_non_empty.

(** X13.  Of an accepted element, the LinkedResource of an [a] takes its
    rel from the [rel] attribute and its description from the [title]
    attribute, that of an [img] takes its description from the [alt]
    attribute and has no rel, and those of an [object] and of a [script]
    have neither; an attribute that is missing or empty leaves the
    property out. *)
Theorem copied_attributes (k : scanned) (s : state) (e : element) (h : string) :
  getAttribute e (reference_attribute k) = Some h ->
  h <> "" ->
  is_relative h = true ->
  (k = ScanScript -> getAttribute e "class" <> Some "remove") ->
  exists entry,
    produces k s e entry
    /\ rel_of entry
       = match k with
         | ScanA => non_empty (getAttribute e "rel")
         | _ => None
         end
    /\ description_of entry
       = match k with
         | ScanA => non_empty (getAttribute e "title")
         | ScanImg => non_empty (getAttribute e "alt")
         | _ => None
         end.
Proof.
  intros Hr Hne R Hc.
  destruct k; simpl in Hr; unfold produces; simpl;
    unfold object_callback, img_callback, a_callback, script_callback.
  4: { assert (D : differs (getAttribute e "class") "remove" = true)
         by (apply differs_spec; auto).
       rewrite D, (relative_reference_accepts s Hr Hne R).
       destruct (endsWith h ".js");
         [|destruct (getAttribute e "type") as [t|];
           [destruct (truthy (Some t))|]];
         eexists; (split; [simpl; reflexivity|]); split; reflexivity. }
  all: rewrite (relative_reference_accepts s Hr Hne R);
    eexists; (split; [simpl; reflexivity|]); split; lookup_all; reflexivity.
Qed.

Lemma copied_attributes_witness :
  exists entry,
    produces ScanA Sample.fresh
             (mkElement "a" [ ("href", "other.html"); ("title", "");
                              ("rel", "next") ]) entry
    /\ rel_of entry = Some "next"
    /\ description_of entry = None.
Proof.
  apply (@copied_attributes ScanA Sample.fresh
           (mkElement "a" [ ("href", "other.html"); ("title", "");
                            ("rel", "next") ]) "other.html");
    [reflexivity | discriminate | reflexivity | discriminate].
Defined.

(** ** The mutations of the document, lines 63 to 66 and 309 to 322 *)

Section TreeUpdates.

Variable p : element -> bool.
Variable f : element -> list node -> node.

(** The update rewrites the first element that [p] accepts, with its
    subtree, and nothing else. *)
Lemma update_first_splits (n n' : node) :
  update_first p f n = Some n' ->
  exists l1 e kids l2,
    elements n = (l1 ++ e :: flat_map elements kids ++ l2)%list
    /\ elements n' = (l1 ++ elements (f e kids) ++ l2)%list
    /\ p e = true
    /\ filter p l1 = [].
Proof.
  revert n'. induction n as [data|e kids IH] using node_induction;
    intros n'; simpl.
  - discriminate.
  - destruct (p e) eqn:Pe.
    + intros [= <-]. exists [], e, kids, []. simpl.
      rewrite !app_nil_r. auto.
    + destruct (update_first_of (update_first p f) kids) as [kids'|] eqn:E;
        [|discriminate].
      intros [= <-]. simpl.
      assert (H : exists l1 e1 kids1 l2,
                 flat_map elements kids
                 = (l1 ++ e1 :: flat_map elements kids1 ++ l2)%list
                 /\ flat_map elements kids'
                    = (l1 ++ elements (f e1 kids1) ++ l2)%list
                 /\ p e1 = true /\ filter p l1 = []).
      { clear Pe. revert kids' E.
        induction IH as [|k kids Hk _ IHkids]; intros kids'; simpl.
        - discriminate.
        - destruct (update_first p f k) as [k'|] eqn:Ek.
          + intros [= <-]. simpl.
            destruct (Hk k' eq_refl) as [l1 [e1 [k1 [l2 [H1 [H2 [H3 H4]]]]]]].
            exists l1, e1, k1, (l2 ++ flat_map elements kids)%list.
            rewrite H1, H2, <- !app_assoc. simpl.
            rewrite <- !app_assoc. auto.
          + destruct (update_first_of (update_first p f) kids) as [kids1|];
              [|discriminate].
            intros [= <-]. simpl.
            destruct (IHkids kids1 eq_refl)
              as [l1 [e1 [k1 [l2 [H1 [H2 [H3 H4]]]]]]].
            exists (elements k ++ l1)%list, e1, k1, l2.
            rewrite H1, H2, <- !app_assoc. repeat split; auto.
            rewrite filter_app, H4, (update_first_none _ _ _ Ek). reflexivity. }
      destruct H as [l1 [e1 [k1 [l2 [H1 [H2 [H3 H4]]]]]]].
      exists (e :: l1), e1, k1, l2. rewrite H1, H2. simpl.
      rewrite Pe. auto.
Qed.

Lemma update_first_finds (n : node) :
  filter p (elements n) <> [] -> update_first p f n <> None.
Proof.
  intros H E. apply update_first_none in E. contradiction.
Qed.

End TreeUpdates.

Lemma lookup_store_other (name other value : string) (l : attribute_list) :
  other <> name ->
  lookup_attribute other (store_attribute name value l) = lookup_attribute other l.
Proof.
  intros Hne. induction l as [|[k v] l IH]; simpl.
  - destruct (String.eqb_spec name other); [congruence | reflexivity].
  - destruct (String.eqb_spec k name) as [->|Hk]; simpl.
    + destruct (String.eqb_spec name other); [congruence | reflexivity].
    + now rewrite IH.
Qed.

Lemma lookup_store_same (name value : string) (l : attribute_list) :
  lookup_attribute name (store_attribute name value l) = Some value.
Proof.
  induction l as [|[k v] l IH]; simpl.
  - now rewrite String.eqb_refl.
  - destruct (String.eqb k name) eqn:E; simpl; rewrite E; auto.
Qed.

Lemma is_toc_marked (e : element) :
  is_toc (setAttribute "role" "doc-toc" e) = is_toc e.
Proof.
  unfold is_toc, matches, getAttribute. simpl.
  now rewrite lookup_store_other by discriminate.
Qed.

(** X14.  Marking the table of contents: a document without [nav#toc] is
    left as it is; otherwise the first [nav#toc] in document order, and
    no other element, gets the attribute [role] with the value [doc-toc],
    its other attributes are kept, and it still is the first [nav#toc]. *)
Theorem mark_toc_marks_the_first_toc (doc : node) :
  match querySelector (ByTagId "nav" "toc") doc with
  | None => mark_toc doc = doc
  | Some toc =>
      let marked := setAttribute "role" "doc-toc" toc in
      querySelector (ByTagId "nav" "toc") (mark_toc doc) = Some marked
      /\ getAttribute marked "role" = Some "doc-toc"
      /\ (forall name, name <> "role" ->
                       getAttribute marked name = getAttribute toc name)
      /\ exists before after,
          elements doc = (before ++ toc :: after)%list
          /\ elements (mark_toc doc) = (before ++ marked :: after)%list
  end.
Proof.
  unfold mark_toc, querySelector, querySelectorAll.
  fold is_toc.
  destruct (update_first is_toc
              (fun e kids => Element (setAttribute "role" "doc-toc" e) kids) doc)
    as [doc1|] eqn:E.
  - apply update_first_splits in E.
    destruct E as [l1 [e [kids [l2 [H1 [H2 [H3 H4]]]]]]].
    simpl in H2. rewrite H1, H2, !filter_app, H4. simpl.
    rewrite is_toc_marked, H3. simpl.
    split; [reflexivity|]. split; [apply lookup_store_same|].
    split; [intros name Hn; now apply lookup_store_other|].
    exists l1, (flat_map elements kids ++ l2)%list. auto.
  - apply update_first_none in E. rewrite E. reflexivity.
Qed.

(** *** The document after a run *)

Lemma mark_toc_shape (d : html_document) :
  exists kids rest,
    mark_toc (documentElement d)
    = Element (mkElement "html" (html_attributes d))
        (Element (mkElement "head" (head_attributes d)) kids :: rest).
Proof.
  unfold mark_toc, documentElement.
  cbn [update_first update_first_of is_toc matches tagName String.eqb Ascii.eqb
       Bool.eqb andb option_map].
  destruct (update_first_of
              (update_first is_toc
                 (fun e kids => Element (setAttribute "role" "doc-toc" e) kids))
              (head_childNodes d)) as [kids|]; cbn [option_map].
  - now exists kids, (after_head d).
  - destruct (update_first_of
                (update_first is_toc
                   (fun e kids => Element (setAttribute "role" "doc-toc" e) kids))
                (after_head d)) as [rest|]; cbn [option_map].
    + now exists (head_childNodes d), rest.
    + now exists (head_childNodes d), (after_head d).
Qed.

(** X16.  A completed run on an HTML document changes the document in two
    ways only: the table of contents is marked, and the head gets two new
    last children, first the [link] with rel [publication] and href
    [#pub_manifest], then the [script] of type [application/ld+json] with
    id [pub_manifest] whose text is the manifest serialized with an
    indentation of four. *)
Theorem run_appends_to_the_head
        (config : Config) (d : html_document) (g : option value) (w' : world) :
  create_manifest config (mkWorld (documentElement d) g) = Ok w' ->
  exists s kids rest,
    final_state config (mkWorld (documentElement d) g) = Ok s
    /\ mark_toc (documentElement d)
       = Element (mkElement "html" (html_attributes d))
           (Element (mkElement "head" (head_attributes d)) kids :: rest)
    /\ document w'
       = Element (mkElement "html" (html_attributes d))
           (Element (mkElement "head" (head_attributes d))
              (kids
               ++ [ Element link_tag [];
                    Element manifest_tag
                      [ Text (Json.stringify (manifest_value (manifest s))) ] ])
            :: rest).
Proof.
  unfold create_manifest. cbn [document global_retval].
  destruct (final_state config (mkWorld (documentElement d) g)) as [s|e];
    [|discriminate].
  destruct (mark_toc_shape d) as [kids [rest Hshape]].
  cbn [document]. rewrite Hshape. unfold append_to_head.
  cbn [update_first update_first_of matches tagName String.eqb Ascii.eqb
       Bool.eqb option_map].
  intros [= <-]. exists s, kids, rest. repeat split.
Qed.

Lemma run_appends_to_the_head_witness :
  exists w' s kids rest,
    create_manifest Sample.config Sample.start = Ok w'
    /\ final_state Sample.config Sample.start = Ok s
    /\ document w'
       = Element (mkElement "html" (html_attributes Sample.page))
           (Element (mkElement "head" (head_attributes Sample.page))
              (kids
               ++ [ Element link_tag [];
                    Element manifest_tag
                      [ Text (Json.stringify (manifest_value (manifest s))) ] ])
            :: rest).
Proof.
  destruct (create_manifest Sample.config Sample.start) as [w'|e] eqn:E;
    [|vm_compute in E; discriminate E].
  destruct (@run_appends_to_the_head Sample.config Sample.page None w' E)
    as [s [kids [rest [Hs [_ Hd]]]]].
  exists w', s, kids, rest. auto.
Defined.

(** *** A second run on the document of the first *)

Lemma append_elements (m : Manifest) (doc doc1 : node) :
  append_to_head m doc = Ok doc1 ->
  exists l1 l2 head,
    elements doc = (l1 ++ l2)%list
    /\ elements doc1 = (l1 ++ [link_tag; manifest_tag] ++ l2)%list
    /\ In head l1 /\ tagName head = "head".
Proof.
  unfold append_to_head.
  match goal with
  | |- context [update_first ?p ?f doc] =>
      destruct (update_first p f doc) as [d|] eqn:E; [|discriminate]
  end.
  intros [= <-]. apply update_first_splits in E.
  destruct E as [l1 [e [kids [l2 [H1 [H2 [H3 _]]]]]]].
  exists (l1 ++ e :: flat_map elements kids)%list, l2, e.
  split; [|split; [|split]].
  - rewrite H1, <- app_assoc. reflexivity.
  - rewrite H2. cbn [elements]. rewrite flat_map_app.
    change (flat_map elements [link_element; manifest_element m])
      with [link_tag; manifest_tag].
    repeat (rewrite <- ?app_assoc, <- ?app_comm_cons). reflexivity.
  - apply in_or_app. right. now left.
  - unfold matches in H3. now apply String.eqb_eq.
Qed.

(** A query that answers neither [nav] elements nor the two appended
    elements does not see the difference. *)
Lemma queries_after_run (sel : selector) (m : Manifest) (doc doc1 : node) :
  append_to_head m doc = Ok doc1 ->
  (forall e, tagName e = "nav" -> matches sel e = false) ->
  matches sel link_tag = false ->
  matches sel manifest_tag = false ->
  querySelectorAll sel (mark_toc doc1) = querySelectorAll sel doc.
Proof.
  intros Ha Hnav Hl Hm. rewrite mark_toc_queries by exact Hnav.
  apply append_elements in Ha. destruct Ha as [l1 [l2 [_ [H1 [H2 _]]]]].
  unfold querySelectorAll. rewrite H1, H2, !filter_app. simpl.
  now rewrite Hl, Hm.
Qed.

Lemma scripts_after_run (m : Manifest) (doc doc1 : node) (s : state) :
  append_to_head m doc = Ok doc1 ->
  for_each (mark_toc doc1) "script" script_callback s
  = for_each doc "script" script_callback s.
Proof.
  intros Ha. unfold for_each. rewrite mark_toc_queries by other_tag.
  apply append_elements in Ha. destruct Ha as [l1 [l2 [_ [H1 [H2 _]]]]].
  unfold querySelectorAll. rewrite H1, H2, !filter_app, !fold_left_app.
  reflexivity.
Qed.

Lemma scan_after_run (m : Manifest) (doc doc1 : node) (s : state) :
  append_to_head m doc = Ok doc1 ->
  scan (mark_toc doc1) s = scan doc s.
Proof.
  intros Ha. unfold scan. cbv zeta.
  rewrite (@scripts_after_run m doc doc1 _ Ha).
  unfold for_each.
  rewrite !(@queries_after_run _ m doc doc1 Ha) by (reflexivity || other_tag).
  reflexivity.
Qed.

Lemma collect_after_run (config : Config) (m : Manifest) (doc doc1 : node)
      (g : option value) :
  append_to_head m doc = Ok doc1 ->
  collect config (mark_toc doc1) g = collect config doc g.
Proof.
  intros Ha. unfold collect, querySelector.
  rewrite !(@queries_after_run _ m doc doc1 Ha) by (reflexivity || other_tag).
  destruct (hd_error (querySelectorAll (ByTagClass "a" "u-url") doc)) as [u|];
    [|reflexivity].
  destruct (hd_error (querySelectorAll (ByTagClass "time" "dt-published") doc))
    as [t|]; [|reflexivity].
  rewrite (@scan_after_run m doc doc1 _ Ha).
  unfold add_orcid, querySelector.
  rewrite !(@queries_after_run _ m doc doc1 Ha) by (reflexivity || other_tag).
  reflexivity.
Qed.

Lemma head_after_run (m m' : Manifest) (doc doc1 : node) :
  append_to_head m doc = Ok doc1 ->
  exists doc2, append_to_head m' (mark_toc doc1) = Ok doc2.
Proof.
  intros Ha. unfold append_to_head at 1.
  match goal with
  | |- context [update_first ?p ?f (mark_toc doc1)] =>
      destruct (update_first p f (mark_toc doc1)) as [d|] eqn:E
  end.
  - now exists d.
  - apply update_first_none in E.
    change (querySelectorAll (ByTag "head") (mark_toc doc1) = []) in E.
    rewrite (@queries_after_run _ m doc doc1 Ha) in E
      by (reflexivity || other_tag).
    apply append_elements in Ha.
    destruct Ha as [l1 [l2 [head [H1 [_ [Hin Ht]]]]]].
    assert (Hh : In head (querySelectorAll (ByTag "head") doc)).
    { unfold querySelectorAll. apply filter_In. split.
      - rewrite H1. apply in_or_app. now left.
      - unfold matches. now apply String.eqb_eq. }
    rewrite E in Hh. destruct Hh.
Qed.

(** X15.  Running the builder again on the document a completed run has
    left (with the table of contents marked, the link and the manifest
    script in the head, and the global [retval] as the run left it)
    completes too and produces the same manifest text: the script it
    added has no src, so the scan passes it over. *)
Theorem second_run_same_manifest (config : Config) (w w1 : world) :
  create_manifest config w = Ok w1 ->
  exists text,
    manifest_text config w = Ok text
    /\ manifest_text config w1 = Ok text.
Proof.
  unfold manifest_text. intros Hrun. rewrite Hrun.
  unfold create_manifest in *.
  destruct (final_state config w) as [s|e] eqn:Hs; [|discriminate].
  destruct (append_to_head (manifest s) (mark_toc (document w)))
    as [doc1|e] eqn:Ha; [|discriminate].
  injection Hrun as <-.
  exists (Json.stringify (manifest_value (manifest s))).
  split; [reflexivity|].
  unfold final_state in *. cbn [document global_retval].
  pose proof (build_manifest_alike config (mark_toc doc1)
                (retval s) (global_retval w)) as Hal.
  unfold build_manifest in Hal, Hs |- *.
  rewrite (@collect_after_run config _ _ _ (retval s) Ha).
  rewrite !(fun g0 => @collect_after_run config _ _ _ g0 Ha) in Hal.
  destruct (collect config (mark_toc (document w)) (global_retval w))
    as [acc|e]; [|discriminate].
  destruct (collect config (mark_toc (document w)) (retval s)) as [acc'|e];
    [|contradiction].
  injection Hs as Hs. destruct Hal as [Hm _].
  destruct (@head_after_run (manifest s) (manifest (deduplicate acc'))
              _ _ Ha) as [doc2 ->].
  rewrite Hm, Hs. reflexivity.
Qed.

Lemma second_run_same_manifest_witness :
  exists w1 text,
    create_manifest Sample.config Sample.start = Ok w1
    /\ manifest_text Sample.config w1 = Ok text.
Proof.
  destruct (create_manifest Sample.config Sample.start) as [w1|e] eqn:E;
    [|vm_compute in E; discriminate E].
  destruct (@second_run_same_manifest Sample.config Sample.start w1 E)
    as [text [_ H]].
  exists w1, text. split; [reflexivity | exact H].
Defined.

(** ** The global [retval], line 125 *)

Lemma array_map_retval (people : list Person) (s : state) :
  retval (snd (array_map person_callback people s))
  = fold_left (fun _ p => Some (person_entry p)) people (retval s).
Proof.
  revert s; induction people as [|p people IH]; intros s; cbn [array_map].
  - reflexivity.
  - assert (Hr : retval (snd (person_callback p s)) = Some (person_entry p)).
    { destruct (person_callback_entry p s) as [Hy _].
      rewrite <- Hy. reflexivity. }
    destruct (person_callback p s) as [y s1]. simpl in Hr.
    specialize (IH s1).
    destruct (array_map person_callback people s1) as [ys s2].
    simpl in *. now rewrite IH, Hr.
Qed.

Lemma person_key_callback_retval (config : Config) (s : state) (key target : string) :
  retval (person_key_callback config s (key, target))
  = fold_left (fun _ p => Some (person_entry p))
              (match config_get config key with Some l => l | None => [] end)
              (retval s).
Proof.
  unfold person_key_callback.
  destruct (config_get config key) as [people|]; [|reflexivity].
  pose proof (array_map_retval people s) as H.
  destruct (array_map person_callback people s) as [objs s1]. exact H.
Qed.

Lemma add_persons_retval (config : Config) (s : state) :
  retval (add_persons config s)
  = fold_left (fun _ p => Some (person_entry p)) (all_people config) (retval s).
Proof.
  unfold add_persons, person_keys_mapping, all_people. cbn [fold_left].
  rewrite !person_key_callback_retval, !fold_left_app.
  unfold config_get. simpl. reflexivity.
Qed.

Lemma callback_retval (k : scanned) (s : state) (e : element) :
  retval (callback_of k s e) = retval s.
Proof.
  destruct k; simpl;
    unfold object_callback, img_callback, a_callback, script_callback.
  4: destruct (differs (getAttribute e "class") "remove"); [|reflexivity].
  all: match goal with
       | |- context [relative_reference ?href ?s0] =>
           destruct (relative_reference_cases href s0)
             as [[Hr ->]|[[Hr ->]|[[h [Hr [Hne [R ->]]]]|[h [Hr [Hne [R ->]]]]]]]
       end.
  all: try (destruct (endsWith h ".js"));
    destruct (getAttribute e "type") as [t|]; try (destruct (truthy (Some t)));
    reflexivity.
Qed.

Lemma fold_left_retval (k : scanned) (l : list element) (s : state) :
  retval (fold_left (callback_of k) l s) = retval s.
Proof.
  revert s; induction l as [|e l IH]; intros s; simpl; [reflexivity|].
  now rewrite IH, callback_retval.
Qed.

Lemma scan_retval (doc : node) (s : state) : retval (scan doc s) = retval s.
Proof.
  unfold scan, for_each.
  rewrite (fold_left_retval ScanScript), (fold_left_retval ScanA),
    (fold_left_retval ScanImg), (fold_left_retval ScanObject).
  reflexivity.
Qed.

(** X17.  A completed run leaves in the global variable [retval] the
    Person entry of the last person record of the configuration, in the
    order editors, authors, creators; when the configuration has no
    person record at all the global is left as it was. *)
Theorem run_leaves_last_person_in_retval (config : Config) (w w' : world) :
  create_manifest config w = Ok w' ->
  (all_people config = [] -> global_retval w' = global_retval w)
  /\ (forall people person,
         all_people config = (people ++ [person])%list ->
         global_retval w' = Some (person_entry person)).
Proof.
  unfold create_manifest. intros H.
  destruct (final_state config w) as [s|e] eqn:Hs; [|discriminate].
  destruct (append_to_head (manifest s) (mark_toc (document w))) as [doc1|e];
    [|discriminate].
  injection H as <-. cbn [global_retval].
  apply final_state_ok in Hs. destruct Hs as [acc [Hacc ->]].
  apply collect_ok in Hacc. destruct Hacc as [u [t [_ [_ ->]]]].
  unfold deduplicate, on_manifest. cbn [retval].
  rewrite scan_retval. cbn [retval]. rewrite add_persons_retval. cbn [retval].
  split.
  - intros ->. reflexivity.
  - intros people person ->. rewrite fold_left_app. reflexivity.
Qed.

Lemma run_leaves_last_person_in_retval_witness :
  exists w',
    create_manifest Sample.config Sample.start = Ok w'
    /\ global_retval w'
       = Some (person_entry (mkPerson "A" None (Some "C") None)).
Proof.
  destruct (create_manifest Sample.config Sample.start) as [w'|e] eqn:E;
    [|vm_compute in E; discriminate E].
  exists w'. split; [reflexivity|].
  apply (proj2 (@run_leaves_last_person_in_retval
                  Sample.config Sample.start w' E) []).
  reflexivity.
Defined.

(** ** The encodingFormat of the manifest itself, line 296 *)

Lemma other_callbacks_keep_format (k : scanned) (s : state) (e : element) :
  k <> ScanScript ->
  m_encodingFormat (manifest (callback_of k s e)) = m_encodingFormat (manifest s).
Proof.
  intros Hk.
  destruct k; try congruence; simpl;
    unfold object_callback, img_callback, a_callback;
    match goal with
    | |- context [relative_reference ?href ?s0] =>
        destruct (relative_reference_cases href s0)
          as [[Hr ->]|[[Hr ->]|[[h [Hr [Hne [R ->]]]]|[h [Hr [Hne [R ->]]]]]]]
    end; reflexivity.
Qed.

Lemma fold_left_keeps_format (k : scanned) (l : list element) (s : state) :
  k <> ScanScript ->
  m_encodingFormat (manifest (fold_left (callback_of k) l s))
  = m_encodingFormat (manifest s).
Proof.
  intros Hk. revert s; induction l as [|e l IH]; intros s; simpl; [reflexivity|].
  now rewrite IH, other_callbacks_keep_format.
Qed.

(** What the script callback does to the encodingFormat of the manifest. *)
Lemma script_callback_format (s : state) (e : element) :
  (exists h t,
      getAttribute e "src" = Some h /\ h <> "" /\ is_relative h = true
      /\ getAttribute e "class" <> Some "remove"
      /\ endsWith h ".js" = false
      /\ getAttribute e "type" = Some t /\ t <> ""
      /\ m_encodingFormat (manifest (script_callback s e)) = Some t)
  \/ (~ (exists h t,
            getAttribute e "src" = Some h /\ h <> "" /\ is_relative h = true
            /\ getAttribute e "class" <> Some "remove"
            /\ endsWith h ".js" = false
            /\ getAttribute e "type" = Some t /\ t <> "")
      /\ m_encodingFormat (manifest (script_callback s e))
         = m_encodingFormat (manifest s)).
Proof.
  unfold script_callback.
  destruct (differs (getAttribute e "class") "remove") eqn:D.
  - apply differs_spec in D.
    destruct (relative_reference_cases (getAttribute e "src") s)
      as [[Hr ->]|[[Hr ->]|[[h [Hr [Hne [R ->]]]]|[h [Hr [Hne [R ->]]]]]]].
    1-3: right; split; [|reflexivity];
      intros [h' [t [Hs [Hn [R' _]]]]]; congruence.
    destruct (endsWith h ".js") eqn:J.
    + right. split; [|reflexivity].
      intros [h' [t [Hs [_ [_ [_ [J' _]]]]]]]. congruence.
    + destruct (getAttribute e "type") as [t|] eqn:T.
      * destruct (truthy (Some t)) eqn:Tr.
        -- left. exists h, t. apply truthy_spec in Tr.
           destruct Tr as [t' [[= <-] Ht]]. repeat split; auto.
        -- right. split; [|reflexivity].
           intros [h' [t' [_ [_ [_ [_ [_ [[= <-] Hne']]]]]]]].
           simpl in Tr. apply negb_false_iff, String.eqb_eq in Tr. contradiction.
      * right. split; [|reflexivity].
        intros [h' [t' [_ [_ [_ [_ [_ [Ht _]]]]]]]]. discriminate Ht.
  - apply not_true_iff_false in D. right. split; [|reflexivity].
    intros [h [t [_ [_ [_ [Hc _]]]]]]. apply D, differs_spec, Hc.
Qed.

Lemma fold_left_scripts_format (l : list element) (s : state) :
  m_encodingFormat (manifest (fold_left script_callback l s)) <> None
  <-> m_encodingFormat (manifest s) <> None
      \/ exists e h t,
          In e l
          /\ getAttribute e "src" = Some h /\ h <> "" /\ is_relative h = true
          /\ getAttribute e "class" <> Some "remove"
          /\ endsWith h ".js" = false
          /\ getAttribute e "type" = Some t /\ t <> "".
Proof.
  revert s; induction l as [|e l IH]; intros s; simpl.
  - split; [auto | intros [H|[e [h [t [[] _]]]]]; exact H].
  - rewrite IH.
    destruct (script_callback_format s e)
      as [[h [t [H1 [H2 [H3 [H4 [H5 [H6 [H7 H8]]]]]]]]]|[Hn Heq]].
    + split; intros _.
      * right. exists e, h, t. repeat split; auto.
      * left. rewrite H8. discriminate.
    + rewrite Heq. split.
      * intros [H|[e' [h [t [Hin H]]]]]; [now left|].
        right. exists e', h, t. split; [now right | exact H].
      * intros [H|[e' [h [t [[<-|Hin] H]]]]]; [now left| |].
        -- exfalso. apply Hn. now exists h, t.
        -- right. now exists e', h, t.
Qed.

(** X18.  The manifest gets a top-level [encodingFormat] exactly when the
    document has a script, not marked [remove], with a non-empty relative
    src that does not end in [.js] and with a non-empty type attribute.
    Objects, images and links never give it one. *)
Theorem manifest_format_comes_from_typed_scripts
        (config : Config) (w : world) (s : state) :
  final_state config w = Ok s ->
  (manifest_property "encodingFormat" (manifest s) <> None
   <-> exists e h t, typed_script (document w) e h t).
Proof.
  intros H. apply final_state_ok in H. destruct H as [acc [Hacc ->]].
  apply collect_ok in Hacc. destruct Hacc as [u [t0 [_ [_ ->]]]].
  assert (Hp : forall m,
             manifest_property "encodingFormat" m <> None
             <-> m_encodingFormat m <> None).
  { intros m. unfold manifest_property, manifest_value. simpl.
    destruct (m_editor m), (m_author m), (m_creator m), (m_encodingFormat m);
      simpl; split; congruence. }
  rewrite Hp.
  set (s3 := on_manifest (add_orcid (mark_toc (document w)))
               (on_manifest (add_status_resources config)
                  (add_persons config
                     (mkState (initial_manifest config (getAttribute u "href")
                                                (getAttribute t0 "datetime"))
                              (global_retval w) [])))).
  unfold deduplicate, scan, for_each.
  cbn [manifest on_manifest with_resources m_encodingFormat].
  rewrite fold_left_scripts_format.
  rewrite (@fold_left_keeps_format ScanA) by discriminate.
  rewrite (@fold_left_keeps_format ScanImg) by discriminate.
  rewrite (@fold_left_keeps_format ScanObject) by discriminate.
  assert (Hnone : m_encodingFormat (manifest s3) = None).
  { subst s3. simpl. unfold add_orcid, add_status_resources.
    destruct (querySelector (ByTagClass "span" "orcid") (mark_toc (document w)));
      destruct (styleFile (status_switch config)),
        (logoFile (status_switch config)), (watermark (status_switch config));
      simpl;
      unfold add_persons, person_keys_mapping; cbn [fold_left];
      repeat match goal with
        | |- context [person_key_callback config ?s0 (?k, ?tg)] =>
            let M := fresh "M" in
            destruct (person_key_callback_spec config s0 k tg) as [M _];
            rewrite M; clear M
        end;
      unfold config_get; simpl;
      destruct (editors config), (authors config), (creators config);
      reflexivity. }
  rewrite Hnone. rewrite mark_toc_queries by other_tag.
  unfold typed_script, accepted. simpl. split.
  - intros [H|[e [h [t [Hin [H1 [H2 [H3 [H4 [H5 [H6 H7]]]]]]]]]]];
      [congruence|].
    exists e, h, t. repeat split; auto.
  - intros [e [h [t [[Hin [H1 [H2 [H3 H4]]]] [H5 [H6 H7]]]]]].
    right. exists e, h, t. repeat split; auto.
Qed.

Lemma manifest_format_comes_from_typed_scripts_witness :
  exists s,
    final_state Sample.config Sample.start = Ok s
    /\ manifest_property "encodingFormat" (manifest s) <> None.
Proof.
  eexists. split.
  - vm_compute. reflexivity.
  - match goal with
    | |- manifest_property _ (manifest ?s) <> None =>
        apply (proj2 (@manifest_format_comes_from_typed_scripts
                        Sample.config Sample.start s
                        ltac:(vm_compute; reflexivity)))
    end.
    exists (mkElement "script" [ ("src", "js/app.mjs"); ("type", "module") ]),
      "js/app.mjs", "module".
    repeat split; try discriminate. vm_compute. tauto.
Defined.

(** ** The errors of a run on any document tree *)

Lemma append_to_head_throws (m : Manifest) (doc : node) :
  (exists doc1, append_to_head m (mark_toc doc) = Ok doc1)
  <-> querySelectorAll (ByTag "head") doc <> [].
Proof.
  unfold append_to_head.
  match goal with
  | |- context [update_first ?p ?f (mark_toc doc)] =>
      destruct (update_first p f (mark_toc doc)) as [d|] eqn:E
  end.
  - split; [intros _ | intros _; now exists d].
    apply update_first_splits in E.
    destruct E as [l1 [e [kids [l2 [H1 [_ [H3 _]]]]]]].
    rewrite <- (@mark_toc_queries (ByTag "head") doc) by other_tag.
    unfold querySelectorAll. rewrite H1, filter_app. cbn [filter]. rewrite H3.
    intros H. apply app_eq_nil in H. destruct H as [_ H]. discriminate H.
  - apply update_first_none in E.
    change (querySelectorAll (ByTag "head") (mark_toc doc) = []) in E.
    rewrite mark_toc_queries in E by other_tag.
    split; [intros [d H]; discriminate H | intros H; contradiction].
Qed.

(** What decides whether a run completes. *)
Lemma run_outcome (config : Config) (w : world) :
  match create_manifest config w with
  | Throw _ =>
      querySelector (ByTagClass "a" "u-url") (document w) = None
      \/ querySelector (ByTagClass "time" "dt-published") (document w) = None
      \/ querySelectorAll (ByTag "head") (document w) = []
  | Ok _ =>
      querySelector (ByTagClass "a" "u-url") (document w) <> None
      /\ querySelector (ByTagClass "time" "dt-published") (document w) <> None
      /\ querySelectorAll (ByTag "head") (document w) <> []
  end.
Proof.
  unfold create_manifest, final_state, build_manifest, collect.
  rewrite mark_toc_url, mark_toc_published.
  destruct (querySelector (ByTagClass "a" "u-url") (document w)) as [u|];
    [|now left].
  destruct (querySelector (ByTagClass "time" "dt-published") (document w))
    as [t|]; [|now right; left].
  match goal with
  | |- context [append_to_head ?m (mark_toc (document w))] =>
      pose proof (append_to_head_throws m (document w)) as Hh;
      destruct (append_to_head m (mark_toc (document w))) as [d|e]
  end.
  - repeat split; try discriminate. apply Hh. now exists d.
  - right; right.
    destruct (querySelectorAll (ByTag "head") (document w)) eqn:Q;
      [reflexivity|].
    destruct (proj2 Hh) as [d H]; [discriminate | discriminate H].
Qed.

Lemma final_state_markers (config : Config) (w : world) (s : state) :
  final_state config w = Ok s ->
  exists u t,
    querySelector (ByTagClass "a" "u-url") (document w) = Some u
    /\ querySelector (ByTagClass "time" "dt-published") (document w) = Some t
    /\ manifest_property "url" (manifest s) = Some (or_null (getAttribute u "href"))
    /\ manifest_property "datePublished" (manifest s)
       = Some (or_null (getAttribute t "datetime")).
Proof.
  intros H. apply final_state_ok in H. destruct H as [acc [Hacc ->]].
  apply collect_ok in Hacc. destruct Hacc as [u [t [Hu [Ht ->]]]].
  rewrite mark_toc_url in Hu. rewrite mark_toc_published in Ht.
  exists u, t. split; [exact Hu|]. split; [exact Ht|].
  set (m0 := initial_manifest config (getAttribute u "href")
                              (getAttribute t "datetime")).
  set (s0 := mkState m0 (global_retval w) []).
  set (s1 := add_persons config s0).
  set (s2 := on_manifest (add_status_resources config) s1).
  set (s3 := on_manifest (add_orcid (mark_toc (document w))) s2).
  set (s4 := scan (mark_toc (document w)) s3).
  assert (Hh : same_header m0 (manifest s4)).
  { apply same_header_trans with (manifest s1);
      [apply (add_persons_header config s0)|].
    apply same_header_trans with (manifest s2);
      [apply (add_status_resources_header config (manifest s1))|].
    apply same_header_trans with (manifest s3);
      [apply (add_orcid_header (mark_toc (document w)) (manifest s2))|].
    apply (scan_header (mark_toc (document w)) s3). }
  destruct Hh as [_ [_ [_ [_ [_ [_ [H7 H8]]]]]]].
  unfold manifest_property, manifest_value, deduplicate.
  cbn [manifest on_manifest with_resources m_url m_datePublished get_property
       String.eqb Ascii.eqb Bool.eqb app].
  rewrite H7, H8. split; reflexivity.
Qed.

(** ** C7: when the run aborts *)

(** C7, as stated, fails: a document tree that has both markers and no
    head element makes the run abort, at line 315. *)
Lemma C7_document_without_head_aborts :
  querySelector (ByTagClass "a" "u-url") Sample.headless <> None
  /\ querySelector (ByTagClass "time" "dt-published") Sample.headless <> None
  /\ create_manifest Sample.config (mkWorld Sample.headless None) = Throw TypeError.
Proof.
  split; [|split].
  - vm_compute. discriminate.
  - vm_compute. discriminate.
  - vm_compute. reflexivity.
Qed.

(** C7, amended.  The run aborts with an error exactly when the element
    [a.u-url], the element [time.dt-published] or the head element is not
    in the document, and completes in every other case; on an HTML
    document, which has its head, it aborts exactly when one of the two
    markers is missing.  Nothing else is an error.  A marker without its
    [href] or [datetime] gives the url or the date the value null.  An
    ASCII specStatus that is none of the codes of the switch gives the
    default stylesheet and logo.  A scanned element without [type], [rel],
    [title] or [alt] gives a LinkedResource without the property.  A
    person without url, company or companyURL gives a Person without id,
    with an undefined affiliation name, which the serializer drops, or
    without affiliation url. *)
Theorem C7_aborts_iff_a_required_element_is_missing (config : Config) (w : world) :
  ((exists e, create_manifest config w = Throw e)
   <-> (querySelector (ByTagClass "a" "u-url") (document w) = None
        \/ querySelector (ByTagClass "time" "dt-published") (document w) = None
        \/ querySelectorAll (ByTag "head") (document w) = []))
  /\ ((exists w', create_manifest config w = Ok w')
      <-> (querySelector (ByTagClass "a" "u-url") (document w) <> None
           /\ querySelector (ByTagClass "time" "dt-published") (document w) <> None
           /\ querySelectorAll (ByTag "head") (document w) <> []))
  /\ (forall (d : html_document) (g : option value),
         (exists e, create_manifest config (mkWorld (documentElement d) g) = Throw e)
         <-> (querySelector (ByTagClass "a" "u-url") (documentElement d) = None
              \/ querySelector (ByTagClass "time" "dt-published")
                               (documentElement d) = None))
  /\ (forall s,
         final_state config w = Ok s ->
         exists u t,
           querySelector (ByTagClass "a" "u-url") (document w) = Some u
           /\ querySelector (ByTagClass "time" "dt-published") (document w)
              = Some t
           /\ manifest_property "url" (manifest s)
              = Some (or_null (getAttribute u "href"))
           /\ manifest_property "datePublished" (manifest s)
              = Some (or_null (getAttribute t "datetime")))
  /\ (ascii_only (specStatus config) = true ->
      ~ In (toUpperCase (specStatus config)) known_statuses ->
      forall m,
        m_resources (add_status_resources config m)
        = (m_resources m
           ++ [ style_resource ("W3C-" ++ toUpperCase (specStatus config));
                logo_resource (toUpperCase (specStatus config))
                              "image/svg+xml" ])%list)
  /\ (forall k s e h,
         getAttribute e (reference_attribute k) = Some h ->
         h <> "" ->
         is_relative h = true ->
         (k = ScanScript -> getAttribute e "class" <> Some "remove") ->
         exists entry,
           produces k s e entry
           /\ (getAttribute e "rel" = None -> rel_of entry = None)
           /\ (getAttribute e "title" = None -> getAttribute e "alt" = None ->
               description_of entry = None)
           /\ (getAttribute e "type" = None -> image_type h = None ->
               endsWith h ".js" = false -> encodingFormat_of entry = None))
  /\ (forall person s,
         exists props affiliation,
           fst (person_callback person s) = VObject props
           /\ get_property "affiliation" props = Some (VObject affiliation)
           /\ (person_url person = None -> get_property "id" props = None)
           /\ (person_company person = None ->
               get_property "name" affiliation = Some VUndefined
               /\ Json.serialize "" VUndefined = None)
           /\ (person_companyURL person = None ->
               get_property "url" affiliation = None)).
Proof.
  assert (Hthrow : forall w0,
             (exists e, create_manifest config w0 = Throw e)
             <-> (querySelector (ByTagClass "a" "u-url") (document w0) = None
                  \/ querySelector (ByTagClass "time" "dt-published")
                                   (document w0) = None
                  \/ querySelectorAll (ByTag "head") (document w0) = [])).
  { intros w0. pose proof (run_outcome config w0) as H.
    destruct (create_manifest config w0) as [w'|e].
    - split; [intros [e He]; discriminate He|].
      destruct H as [H1 [H2 H3]]. intros [C|[C|C]]; contradiction.
    - split; [intros _; exact H | intros _; now exists e]. }
  split; [apply Hthrow|]. split.
  { pose proof (run_outcome config w) as H.
    destruct (create_manifest config w) as [w'|e].
    - split; [intros _; exact H | intros _; now exists w'].
    - split; [intros [w' Hw]; discriminate Hw|].
      intros [H1 [H2 H3]]. destruct H as [C|[C|C]]; contradiction. }
  split.
  { intros d g. rewrite Hthrow. cbn [document]. split.
    - intros [H|[H|H]]; [now left | now right | discriminate H].
    - intros [H|H]; [now left | now right; left]. }
  split; [apply final_state_markers|]. split.
  { intros _ H m. rewrite add_status_resources_adds. f_equal.
    now apply status_switch_default. }
  split.
  { intros k s e h Hr Hne R Hc.
    destruct k; simpl in Hr; unfold produces; simpl;
      unfold object_callback, img_callback, a_callback, script_callback.
    4: { assert (D : differs (getAttribute e "class") "remove" = true)
           by (apply differs_spec; auto).
         rewrite D, (relative_reference_accepts s Hr Hne R).
         destruct (endsWith h ".js");
           [|destruct (getAttribute e "type") as [t|];
             [destruct (truthy (Some t))|]];
           eexists; (split; [simpl; reflexivity|]);
           repeat split; intros; try reflexivity; discriminate. }
    all: rewrite (relative_reference_accepts s Hr Hne R);
      eexists; (split; [simpl; reflexivity|]);
      (split; [intros Hrel|split; [intros Htitle Halt|intros Htype Himg _]]);
      lookup_all;
      rewrite ?Hrel, ?Htitle, ?Halt, ?Htype, ?Himg; reflexivity. }
  intros person s. unfold person_callback.
  destruct (person_url person), (person_companyURL person),
    (person_company person); simpl;
    eexists; eexists; repeat split; intros; try reflexivity; discriminate.
Qed.

Lemma C7_aborts_iff_a_required_element_is_missing_witness :
  (exists w', create_manifest Sample.config Sample.start = Ok w')
  /\ exists e, create_manifest Sample.config (mkWorld Sample.headless None) = Throw e.
Proof.
  split.
  - apply (proj1 (proj2 (C7_aborts_iff_a_required_element_is_missing
                           Sample.config Sample.start))).
    repeat split; vm_compute; discriminate.
  - apply (proj1 (C7_aborts_iff_a_required_element_is_missing
                    Sample.config (mkWorld Sample.headless None))).
    right; right. vm_compute. reflexivity.
Defined.
